(** * vid2vibes: audio analysis, pattern codec and playback scheduler

    A shallow embedding of the analysis worker ([audioAnalyzer.js]), the
    pattern generator ([PatternGenerator]) and the pattern scheduling part
    of the player ([player.js]), with the properties the specification
    states about them; then the conversion of the generated commands
    into a script, the rest of the worker (beat grid, pattern data), the
    volume controls, the file list of [fileHandler.js] and the time
    display of [utils.js], with further properties of the code.

    Numbers.  A JavaScript number is modelled by an exact rational [Q]
    (times, levels, BPM) or by an integer [Z] (intensities, counts,
    indices).  [==] is numeric equality on [Q].  Where JavaScript would
    produce [NaN], [Infinity] or [undefined] the model says so explicitly
    at that place (an [option], a separate branch or a result type). *)

From Stdlib Require Import ZArith QArith Qround Qabs Qminmax List String Ascii Bool Lia Lqa.
From Stdlib Require Import DecimalString DecimalZ DecimalPos Sorted.
From Equations Require Import Equations.
Import ListNotations.

Local Open Scope Z_scope.

(** ** JavaScript numeric helpers *)

Module JS.

(** [Math.floor], [Math.ceil] and [Math.round] (round half up:
    [Math.round(x) = floor(x + 0.5)]). *)
Definition Math_floor (x : Q) : Z := Qfloor x.
Definition Math_ceil (x : Q) : Z := Qceiling x.
Definition Math_round (x : Q) : Z := Qfloor (x + (1 # 2)).

(** [Utils.clamp(value, min, max) = Math.min(Math.max(value, min), max)]. *)
Definition clamp (value min max : Z) : Z := Z.min (Z.max value min) max.

(** The outcome of a call that may raise: a value or a [TypeError]. *)
Inductive result (A : Type) : Type :=
| Ok (a : A)
| TypeError.
Arguments Ok {A} a.
Arguments TypeError {A}.

(** [arr.slice(start)] for an integer [start]: a negative [start] counts
    from the end of the array. *)
Definition slice_from {A : Type} (start : Z) (arr : list A) : list A :=
  if start <? 0
  then skipn (Z.to_nat (Z.max (Z.of_nat (List.length arr) + start) 0)) arr
  else skipn (Z.to_nat start) arr.

(** [arr.slice(start, end)] for indices [0 <= start <= end]. *)
Definition slice {A : Type} (start stop : nat) (arr : list A) : list A :=
  firstn (stop - start) (skipn start arr).

End JS.

(** ** Strings: [split], [join], number to string and [parseInt] *)

Module Str.

(** [s.split(sep)] for a one-character separator.  The empty string
    splits into one empty piece. *)
Fixpoint split (sep : ascii) (s : string) : list string :=
  match s with
  | EmptyString => [EmptyString]
  | String c s' =>
      if Ascii.eqb c sep then EmptyString :: split sep s'
      else match split sep s' with
           | [] => [String c EmptyString]
           | w :: ws => String c w :: ws
           end
  end.

(** [arr.join(sep)] on an array of strings. *)
Fixpoint join (sep : ascii) (l : list string) : string :=
  match l with
  | [] => EmptyString
  | [x] => x
  | x :: xs => (x ++ String sep (join sep xs))%string
  end.

(** Does the character occur in the string? *)
Fixpoint mem_char (c : ascii) (s : string) : bool :=
  match s with
  | EmptyString => false
  | String a s' => Ascii.eqb a c || mem_char c s'
  end.

(** [String(n)] for an integer [n]: decimal digits, ["-"] in front of a
    negative number.  (JavaScript switches to exponent notation from
    [1e21] on; intensities are far below.) *)
Definition number_toString (n : Z) : string :=
  NilZero.string_of_int (Z.to_int n).

(** [nums.join(sep)] on an array of integers. *)
Definition join_numbers (sep : ascii) (l : list Z) : string :=
  join sep (map number_toString l).

(** White space skipped by [trim] and by [parseInt] at the front. *)
Definition is_space (c : ascii) : bool :=
  match nat_of_ascii c with
  | 9%nat | 10%nat | 11%nat | 12%nat | 13%nat | 32%nat => true
  | _ => false
  end.

Fixpoint skip_spaces (s : string) : string :=
  match s with
  | String c s' => if is_space c then skip_spaces s' else s
  | EmptyString => EmptyString
  end.

(** The value of a digit character in the given radix (10 or 16). *)
Definition digit_val (radix : Z) (c : ascii) : option Z :=
  let n := Z.of_nat (nat_of_ascii c) in
  let v := if (48 <=? n) && (n <=? 57) then Some (n - 48)
           else if (97 <=? n) && (n <=? 102) then Some (n - 87)
           else if (65 <=? n) && (n <=? 70) then Some (n - 55)
           else None in
  match v with
  | Some d => if d <? radix then Some d else None
  | None => None
  end.

(** The longest prefix of digits, as digit values. *)
Fixpoint take_digits (radix : Z) (s : string) : list Z :=
  match s with
  | String c s' =>
      match digit_val radix c with
      | Some d => d :: take_digits radix s'
      | None => []
      end
  | EmptyString => []
  end.

Definition digits_value (radix : Z) (ds : list Z) : Z :=
  fold_left (fun acc d => acc * radix + d) ds 0.

(** [parseInt(s)] (no radix argument): leading white space is skipped,
    then an optional sign, then an optional [0x]/[0X] prefix selecting
    radix 16, then the longest run of digits; anything after it is
    ignored.  [None] is [NaN] (no digit found). *)
Definition parseInt (s : string) : option Z :=
  let s1 := skip_spaces s in
  let '(sign, s2) :=
    match s1 with
    | String "-"%char r => (-1, r)
    | String "+"%char r => (1, r)
    | _ => (1, s1)
    end in
  let '(radix, s3) :=
    match s2 with
    | String "0"%char (String "x"%char r) => (16, r)
    | String "0"%char (String "X"%char r) => (16, r)
    | _ => (10, s2)
    end in
  match take_digits radix s3 with
  | [] => None
  | ds => Some (sign * digits_value radix ds)
  end.

(** [s.toLowerCase()] on ASCII letters. *)
Definition lower_char (c : ascii) : ascii :=
  let n := nat_of_ascii c in
  if ((65 <=? n) && (n <=? 90))%nat then ascii_of_nat (n + 32) else c.

Fixpoint toLowerCase (s : string) : string :=
  match s with
  | EmptyString => EmptyString
  | String c s' => String (lower_char c) (toLowerCase s')
  end.

(** [s.includes(sub)]. *)
Fixpoint includes (sub s : string) : bool :=
  String.prefix sub s ||
  match s with
  | EmptyString => false
  | String _ s' => includes sub s'
  end.

(** [s.replace(/old/g, new)] for a non-empty literal [old]: every
    occurrence, scanning from the left. *)
Fixpoint replace_all_fuel (fuel : nat) (old new s : string) : string :=
  match fuel with
  | O => s
  | S fuel' =>
      if String.prefix old s
      then (new ++ replace_all_fuel fuel' old new
                     (String.substring (String.length old)
                        (String.length s - String.length old) s))%string
      else match s with
           | EmptyString => EmptyString
           | String c s' => String c (replace_all_fuel fuel' old new s')
           end
  end.

Definition replace_all (old new s : string) : string :=
  replace_all_fuel (S (String.length s)) old new s.

(** The digit values of a decimal numeral, most significant first. *)
Fixpoint uint_digits (d : Decimal.uint) : list Z :=
  match d with
  | Decimal.Nil => []
  | Decimal.D0 d => 0 :: uint_digits d
  | Decimal.D1 d => 1 :: uint_digits d
  | Decimal.D2 d => 2 :: uint_digits d
  | Decimal.D3 d => 3 :: uint_digits d
  | Decimal.D4 d => 4 :: uint_digits d
  | Decimal.D5 d => 5 :: uint_digits d
  | Decimal.D6 d => 6 :: uint_digits d
  | Decimal.D7 d => 7 :: uint_digits d
  | Decimal.D8 d => 8 :: uint_digits d
  | Decimal.D9 d => 9 :: uint_digits d
  end.

(** [s.trim()]: [parseInt] skips leading white space itself and ignores
    whatever follows the digits, so [parseInt(s.trim())] is [parseInt(s)]
    on the front-trimmed string. *)
Definition parseInt_trim (s : string) : option Z := parseInt (skip_spaces s).

End Str.

(** ** Comparisons on rationals, as booleans *)

Module QB.

Definition leb (x y : Q) : bool := Qle_bool x y.
Definition ltb (x y : Q) : bool := negb (Qle_bool y x).
Definition eqb (x y : Q) : bool := Qeq_bool x y.

(** [x || d] on numbers: [0] is falsy (so is [NaN], which the rational
    model does not contain). *)
Definition or_default (x d : Q) : Q := if eqb x 0 then d else x.

End QB.

(** ** Analysis data *)

Module Analysis.

(** A raw level: a number, or [NaN] (the RMS of an empty window is
    [0/0]), or [-Infinity] ([Math.max()] of nothing). *)
Inductive level : Type :=
| Num (q : Q)
| NaN
| NegInfinity.

(** One entry of [volumeData]: [{ time, volume, normalized }]. *)
Record VolumePoint : Type := mkVolumePoint {
  time : Q;
  volume : level;
  normalized : Q
}.

(** The fields of the worker's result that pattern generation reads. *)
Record AnalysisResult : Type := mkAnalysisResult {
  duration : Q;
  bpm : Z;
  beatInterval : Q;
  volumeData : list VolumePoint
}.

End Analysis.

(** ** PatternGenerator *)

Module PatternGenerator.

Import JS Str QB Analysis.

(** [_meta] of a generated command. *)
Record Meta : Type := mkMeta {
  startTime : Q;
  endTime : Q;
  points : Z;
  intervalMs : Z;
  isResumeSlice : bool
}.

(** A Lovense command object.  A ["Pattern"] command carries [rule] and
    [strength]; a ["Function"] command carries [action] and no
    [strength]; [_meta] is optional. *)
Record Pattern : Type := mkPattern {
  command : string;
  rule : option string;
  strength : option string;
  action : option string;
  timeSec : Q;
  apiVer : Z;
  _meta : option Meta
}.

Record Settings : Type := mkSettings {
  deviceType : string;
  minIntensity : Z;
  maxIntensity : Z;
  onBeatBoost : Q;
  breakIntensity : Q
}.

(** The settings object the result echoes. *)
Record SettingsEcho : Type := mkSettingsEcho {
  echo_minIntensity : Z;
  echo_maxIntensity : Z;
  echo_onBeatBoost : Q;
  echo_breakIntensity : Q
}.

Record Generated : Type := mkGenerated {
  device : string;
  format : string;
  totalDuration : Q;
  gen_bpm : Z;
  gen_beatInterval : Q;
  gen_intervalMs : Z;
  stepsPerBeat : Z;
  beatTiming : string;
  patternCount : nat;
  totalPoints : nat;
  settings : SettingsEcho;
  patterns : list Pattern
}.

(** [deviceFeatures]: the device to feature-string table. *)
Definition deviceFeatures (dt : string) : option string :=
  if String.eqb dt "generic-vibe" then Some "v"%string
  else if String.eqb dt "max2" then Some "v,p"%string
  else if String.eqb dt "nora" then Some "v,r"%string
  else if String.eqb dt "gush2" then Some "o"%string
  else if String.eqb dt "solace" then Some "t"%string
  else None.

(** [this.deviceFeatures[deviceType] || 'v']. *)
Definition featureStr_of (dt : string) : string :=
  match deviceFeatures dt with
  | Some f => f
  | None => "v"%string
  end.

Definition c_intervalMs : Z := 100.
Definition intervalSec : Q := 1 # 10.

(** [for (let t = 0; t < duration; t += beatInterval) beats.push(t)].
    The loop does not end when [beatInterval <= 0 < duration]; [None] is
    "out of fuel". *)
Fixpoint build_beats (fuel : nat) (duration beatInterval t : Q) : option (list Q) :=
  if ltb t duration then
    match fuel with
    | O => None
    | S fuel' =>
        match build_beats fuel' duration beatInterval (t + beatInterval) with
        | Some bs => Some (t :: bs)
        | None => None
        end
    end
  else Some [].

(** The number of iterations the beat loop makes when [beatInterval > 0]. *)
Definition beats_fuel (duration beatInterval : Q) : nat :=
  Z.to_nat (Qceiling (duration / beatInterval)).

(** [for (b = 0; b < beats.length; b++) { if (t >= beats[b]) beatIndex = b; else break; }] *)
Fixpoint find_beatIndex (beats : list Q) (t : Q) (b beatIndex : nat) : nat :=
  match beats with
  | [] => beatIndex
  | x :: rest => if leb x t then find_beatIndex rest t (S b) b else beatIndex
  end.

(** [volumeData.findIndex(v => v.time >= t)]; [None] is [-1]. *)
Fixpoint findIndex_time (vd : list VolumePoint) (t : Q) (i : nat) : option nat :=
  match vd with
  | [] => None
  | v :: rest => if leb t (time v) then Some i else findIndex_time rest t (S i)
  end.

(** [volIdx >= 0 ? volumeData[Math.max(0, volIdx - 1)]?.normalized || 0.5 : 0.5] *)
Definition volume_at (vd : list VolumePoint) (t : Q) : Q :=
  match findIndex_time vd t 0 with
  | Some volIdx =>
      match nth_error vd (Nat.max 0 (volIdx - 1)) with
      | Some v => or_default (normalized v) (1 # 2)
      | None => 1 # 2
      end
  | None => 1 # 2
  end.

(** [stepIntoBeat < onSteps] for the tick [step]; with no beat at all
    [beats[beatIndex]] is [undefined], the comparison is on [NaN] and is
    false. *)
Definition isOnBeat (beats : list Q) (onSteps : Z) (step : nat) : bool :=
  let t := (inject_Z (Z.of_nat step) * intervalSec)%Q in
  let beatIndex := find_beatIndex beats t 0 0 in
  match nth_error beats beatIndex with
  | Some beatStartTime =>
      let timeIntoBeat := (t - beatStartTime)%Q in
      let stepIntoBeat := Math_round (timeIntoBeat / intervalSec) in
      stepIntoBeat <? onSteps
  | None => false
  end.

(** The body of the tick loop: the strength pushed for [step]. *)
Definition strength_at (s : Settings) (vd : list VolumePoint)
    (beats : list Q) (onSteps : Z) (step : nat) : Z :=
  let t := (inject_Z (Z.of_nat step) * intervalSec)%Q in
  let vol := volume_at vd t in
  let intensity :=
    if isOnBeat beats onSteps step
    then Qmin 1 (vol * onBeatBoost s)
    else breakIntensity s in
  let range := maxIntensity s - minIntensity s in
  let mappedIntensity :=
    Math_round (inject_Z (minIntensity s) + intensity * inject_Z range) in
  clamp mappedIntensity (minIntensity s) (maxIntensity s).

Definition calc_stepsPerBeat (beatInterval : Q) : Z :=
  Math_round (beatInterval / intervalSec).
Definition calc_onSteps (spb : Z) : Z :=
  Z.max 1 (Math_round (inject_Z spb * (3 # 4))).
Definition calc_offSteps (spb onSteps : Z) : Z :=
  Z.max 1 (spb - onSteps).

Definition calc_totalSteps (duration : Q) : Z := Math_ceil (duration / intervalSec).

(** [allStrengths]: one value per 100 ms tick. *)
Definition all_strengths (s : Settings) (a : AnalysisResult) (beats : list Q) : list Z :=
  let onSteps := calc_onSteps (calc_stepsPerBeat (beatInterval a)) in
  map (strength_at s (volumeData a) beats onSteps)
      (seq 0 (Z.to_nat (calc_totalSteps (duration a)))).

(** [chunkSize = Math.min(50, remaining)] with
    [remaining = allStrengths.length - idx]. *)
Definition chunkSize_at (allStrengths : list Z) (idx : nat) : nat :=
  let remaining := (List.length allStrengths - idx)%nat in
  Nat.min 50 remaining.
Arguments chunkSize_at : simpl never.

(** [chunk = allStrengths.slice(idx, idx + chunkSize)] *)
Definition chunk_at (allStrengths : list Z) (idx : nat) : list Z :=
  let chunkSize := chunkSize_at allStrengths idx in
  slice idx (idx + chunkSize) allStrengths.

(** The command object pushed for the chunk that starts at [idx]. *)
Definition make_pattern (featureStr : string) (allStrengths : list Z) (idx : nat) : Pattern :=
  let chunk := chunk_at allStrengths idx in
  let patternStartTime := (inject_Z (Z.of_nat idx) * intervalSec)%Q in
  let patternDuration :=
    (inject_Z (Math_round (inject_Z (Z.of_nat (List.length chunk)) * intervalSec * 1000))
       / 1000)%Q in
  {| command := "Pattern";
     rule := Some ("V:1;F:" ++ featureStr ++ ";S:" ++ number_toString c_intervalMs ++ "#")%string;
     strength := Some (join_numbers ";" chunk);
     action := None;
     timeSec := patternDuration;
     apiVer := 1;
     _meta := Some {|
       startTime := (inject_Z (Math_round (patternStartTime * 100)) / 100)%Q;
       endTime :=
         (inject_Z (Math_round ((patternStartTime + patternDuration) * 100)) / 100)%Q;
       points := Z.of_nat (List.length chunk);
       intervalMs := c_intervalMs;
       isResumeSlice := false |} |}.

(** [while (idx < allStrengths.length) { ...; patterns.push(...); idx += chunkSize; }]
    The patterns come out in the order they are pushed. *)
Equations? encode_from (featureStr : string) (allStrengths : list Z) (idx : nat)
  : list Pattern by wf (List.length allStrengths - idx)%nat lt :=
  encode_from featureStr allStrengths idx with lt_dec idx (List.length allStrengths) => {
    | left _ =>
        make_pattern featureStr allStrengths idx
          :: encode_from featureStr allStrengths
               (idx + chunkSize_at allStrengths idx);
    | right _ => [] }.
Proof. unfold chunkSize_at. lia. Qed.

Definition encode (featureStr : string) (allStrengths : list Z) : list Pattern :=
  encode_from featureStr allStrengths 0.

(** [generate(analysisResult, settings)].  [None] only when the beat loop
    runs out of fuel, that is when the source loops forever. *)
Definition generate (a : AnalysisResult) (s : Settings) : option Generated :=
  let featureStr := featureStr_of (deviceType s) in
  let spb := calc_stepsPerBeat (beatInterval a) in
  let onSteps := calc_onSteps spb in
  let offSteps := calc_offSteps spb onSteps in
  match build_beats (beats_fuel (duration a) (beatInterval a))
                    (duration a) (beatInterval a) 0 with
  | None => None
  | Some beats =>
      let allStrengths := all_strengths s a beats in
      let ps := encode featureStr allStrengths in
      Some {| device := deviceType s;
              format := "official";
              totalDuration := duration a;
              gen_bpm := bpm a;
              gen_beatInterval := (inject_Z (Math_round (beatInterval a * 1000)) / 1000)%Q;
              gen_intervalMs := c_intervalMs;
              stepsPerBeat := spb;
              beatTiming := (number_toString onSteps ++ " on / "
                             ++ number_toString offSteps ++ " off per beat")%string;
              patternCount := List.length ps;
              totalPoints := List.length allStrengths;
              settings := {| echo_minIntensity := minIntensity s;
                             echo_maxIntensity := maxIntensity s;
                             echo_onBeatBoost := onBeatBoost s;
                             echo_breakIntensity := breakIntensity s |};
              patterns := ps |}
  end.

(** The numeric values of a command's [strength], as
    [convertOfficialFormat] reads them:
    [pattern.strength.split(';').map(s => parseInt(s.trim()))]. *)
Definition strength_tokens (p : Pattern) : list string :=
  match strength p with
  | Some s => split ";" s
  | None => []
  end.

Definition strengths_of (p : Pattern) : list (option Z) :=
  map parseInt_trim (strength_tokens p).

(** [_meta.points] of a command, [0] without metadata. *)
Definition points_of (p : Pattern) : Z :=
  match _meta p with
  | Some m => points m
  | None => 0
  end.

(** [createResumePattern(pattern, currentTime)]: the command cut down to
    what remains to be played at [currentTime].  [Ok None] is [null].
    With [intervalMs = 0] the division gives [Infinity], which is
    [>= points]: the call returns [null]. *)
Definition createResumePattern (pattern : Pattern) (currentTime : Q)
  : result (option Pattern) :=
  match _meta pattern with
  | None => Ok (Some pattern)
  | Some m =>
      let intervalSec := (inject_Z (intervalMs m) / 1000)%Q in
      let timeIntoPattern := (currentTime - startTime m)%Q in
      if leb timeIntoPattern 0 then Ok (Some pattern)
      else if intervalMs m =? 0 then Ok None
      else
        let skipCommands := Math_floor (timeIntoPattern / intervalSec) in
        if points m <=? skipCommands then Ok None
        else
          match strength pattern with
          | None => TypeError
          | Some s =>
              let strengths := split ";" s in
              let remainingStrengths := slice_from skipCommands strengths in
              if (List.length remainingStrengths =? 0)%nat then Ok None
              else
                let newDuration :=
                  (inject_Z (Math_round
                     (inject_Z (Z.of_nat (List.length remainingStrengths))
                      * intervalSec * 1000)) / 1000)%Q in
                Ok (Some {|
                  command := command pattern;
                  rule := rule pattern;
                  strength := Some (join ";" remainingStrengths);
                  action := action pattern;
                  timeSec := newDuration;
                  apiVer := apiVer pattern;
                  _meta := Some {|
                    startTime := currentTime;
                    endTime := endTime m;
                    points := Z.of_nat (List.length remainingStrengths);
                    intervalMs := intervalMs m;
                    isResumeSlice := true |} |})
          end
  end.

(** [patternLibrary]: the built-in simple patterns. *)
Definition patternLibrary (name : string) : option string :=
  if String.eqb name "wave" then Some "v:1;v:5;v:10;v:15;v:20;v:15;v:10;v:5"%string
  else if String.eqb name "pulse" then Some "v:20;v:0;v:20;v:0;v:20;v:0"%string
  else if String.eqb name "escalate" then Some "v:5;v:10;v:15;v:20;v:20;v:20"%string
  else if String.eqb name "earthquake" then Some "v:3;v:20;v:8;v:18;v:5;v:15"%string
  else if String.eqb name "heartbeat" then Some "v:12;v:16;v:4;v:12;v:16;v:4"%string
  else if String.eqb name "fireworks" then Some "v:2;v:6;v:20;v:10;v:4;v:1"%string
  else if String.eqb name "gentle" then Some "v:3;v:5;v:7;v:5;v:3;v:1"%string
  else if String.eqb name "intense" then Some "v:15;v:18;v:20;v:20;v:18;v:15"%string
  else if String.eqb name "teasing" then Some "v:8;v:12;v:8;v:4;v:8;v:12;v:8;v:4"%string
  else if String.eqb name "steady" then Some "v:10;v:10;v:10;v:10;v:10;v:10"%string
  else None.

(** [getLibraryPattern(patternName, deviceType)]: for a Gush the channel
    tag [v:] becomes [o:]. *)
Definition getLibraryPattern (patternName : string) (deviceType : option string)
  : option string :=
  match patternLibrary patternName with
  | None => None
  | Some pattern =>
      match deviceType with
      | Some dt =>
          if (negb (String.eqb dt "")) && includes "gush" (toLowerCase dt)
          then Some (replace_all "v:" "o:" pattern)
          else Some pattern
      | None => Some pattern
      end
  end.

End PatternGenerator.

(** ** The analysis worker of AudioAnalyzer *)

Module AudioAnalyzer.

Import JS QB.
Import Analysis.

(** [channelData[i]] inside the buffer. *)
Definition sample (channelData : list Q) (i : nat) : Q := nth i channelData 0%Q.

(** [sum += channelData[i] ** 2] for [i] from [start] on, [count] times. *)
Definition sum_squares (channelData : list Q) (start count : nat) : Q :=
  fold_left (fun sum i => (sum + sample channelData i * sample channelData i)%Q)
            (seq start count) 0%Q.







Definition analysisStep : Q := 1 # 100.

Section Worker.

(** [Math.sqrt]. *)
Variable Math_sqrt : Q -> Q.

Variable channelData : list Q.
Variable sampleRate : Q.

Definition duration_of : Q := (inject_Z (Z.of_nat (List.length channelData)) / sampleRate)%Q.

Definition windowSize : Z := Math_floor (sampleRate * (2 # 100)).

(** The RMS over the window that starts at [t]; an empty window gives
    [0 / 0]. *)
Definition rms_at (t : Q) : level :=
  let startSample := Math_floor (t * sampleRate) in
  let endSample := Z.min (startSample + windowSize) (Z.of_nat (List.length channelData)) in
  if endSample - startSample =? 0 then NaN
  else
    let sum := sum_squares channelData (Z.to_nat startSample)
                 (Z.to_nat (endSample - startSample)) in
    Num (Math_sqrt (sum / inject_Z (endSample - startSample))).

(** [for (let t = 0; t < duration; t += analysisStep) volumeData.push(...)] *)
Fixpoint volume_loop (fuel : nat) (t : Q) : list (Q * level) :=
  if ltb t duration_of then
    match fuel with
    | O => []
    | S fuel' => (t, rms_at t) :: volume_loop fuel' (t + analysisStep)
    end
  else [].



(** *** detectOnsets *)

Record OnsetState : Type := mkOnsetState {
  onsets : list Q;
  prevEnergy : Q;
  energyHistory : list Q
}.

Definition historySize : nat := 10.

Definition frameSize : Z := Math_floor (sampleRate * (1 # 100)).
Definition hopSize : Z := Math_floor (inject_Z frameSize / 2).

(** [onsets[onsets.length - 1]], [None] for an empty array. *)
Definition last_onset (l : list Q) : option Q :=
  match l with
  | [] => None
  | _ => Some (last l 0%Q)
  end.

(** The loop body at frame start [i]. *)
Definition onset_step (i : Z) (st : OnsetState) : OnsetState :=
  let energy :=
    Math_sqrt (sum_squares channelData (Z.to_nat i) (Z.to_nat frameSize)
               / inject_Z frameSize) in
  let pushed := energyHistory st ++ [energy] in
  let history :=
    if (historySize <? List.length pushed)%nat then tl pushed else pushed in
  let avgEnergy :=
    (fold_left Qplus history 0 / inject_Z (Z.of_nat (List.length history)))%Q in
  let onsets' :=
    if ltb (avgEnergy * (15 # 10)) energy && ltb (prevEnergy st * (13 # 10)) energy
    then
      let time := (inject_Z i / sampleRate)%Q in
      match last_onset (onsets st) with
      | None => onsets st ++ [time]
      | Some l => if ltb (5 # 100) (time - l) then onsets st ++ [time] else onsets st
      end
    else onsets st in
  {| onsets := onsets'; prevEnergy := energy; energyHistory := history |}.

(** [for (let i = 0; i < channelData.length - frameSize; i += hopSize)].
    With [hopSize = 0] the source never leaves the loop; [None] is "out
    of fuel". *)
Fixpoint onset_loop (fuel : nat) (i : Z) (st : OnsetState) : option (list Q) :=
  if i <? Z.of_nat (List.length channelData) - frameSize then
    match fuel with
    | O => None
    | S fuel' => onset_loop fuel' (i + hopSize) (onset_step i st)
    end
  else Some (onsets st).

(** With [hopSize >= 1] the loop makes at most [channelData.length]
    iterations. *)
Definition detectOnsets : option (list Q) :=
  onset_loop (List.length channelData) 0
             {| onsets := []; prevEnergy := 0; energyHistory := [] |}.

End Worker.


(** *** estimateBPM *)

Record TempoEstimate : Type := mkTempo {
  bpm : Z;
  beatInterval : Q
}.

(** [intervals.push(onsets[i] - onsets[i - 1])] for [i = 1 ..]. *)
Fixpoint intervals_of (onsets : list Q) : list Q :=
  match onsets with
  | a :: (b :: _) as rest => (b - a)%Q :: intervals_of rest
  | _ => []
  end.

Definition binSize : Q := 2 # 100.

(** The histogram object: its keys in insertion order, with counts. *)
Definition histogram : Type := list (Q * Z).

(** [histogram[bin] = (histogram[bin] || 0) + 1] *)
Fixpoint hist_incr (h : histogram) (bin : Q) : histogram :=
  match h with
  | [] => [(bin, 1)]
  | (k, c) :: rest =>
      if eqb k bin then (k, c + 1) :: rest else (k, c) :: hist_incr rest bin
  end.

Definition bin_of (interval : Q) : Q :=
  (inject_Z (Math_round (interval / binSize)) * binSize)%Q.

Definition build_histogram (intervals : list Q) : histogram :=
  fold_left
    (fun h interval =>
       if leb (25 # 100) interval && leb interval 1
       then hist_incr h (bin_of interval)
       else h)
    intervals [].

(** Every key of the histogram is a positive number. *)
Definition keys_positive (h : histogram) : Prop := Forall (fun e => (0 < fst e)%Q) h.

(** A property key that is an array index (a canonical integer below
    [2^32 - 1]) is enumerated before the other keys, in ascending
    order; the others follow in insertion order. *)
Definition is_array_index (k : Q) : bool :=
  eqb (inject_Z (Qfloor k)) k && (0 <=? Qfloor k) && (Qfloor k <? 4294967295).

Fixpoint insert_entry (e : Q * Z) (l : histogram) : histogram :=
  match l with
  | [] => [e]
  | x :: rest => if leb (fst e) (fst x) then e :: l else x :: insert_entry e rest
  end.

Definition sort_entries (l : histogram) : histogram :=
  fold_right insert_entry [] l.

(** [Object.entries(histogram)] *)
Definition entries (h : histogram) : histogram :=
  sort_entries (filter (fun e => is_array_index (fst e)) h)
  ++ filter (fun e => negb (is_array_index (fst e))) h.

(** The scan for the fullest bin: [(maxCount, bestInterval)]. *)
Definition best_bin (es : histogram) : Z * Q :=
  fold_left
    (fun acc e => if fst acc <? snd e then (snd e, fst e) else acc)
    es (0, 1 # 2).

(** [while (bpm < 80 && bpm > 0) bpm *= 2;] *)
Fixpoint double_while (fuel : nat) (b : Q) : option Q :=
  if ltb b 80 && ltb 0 b then
    match fuel with
    | O => None
    | S fuel' => double_while fuel' (b * 2)
    end
  else Some b.

(** [while (bpm > 180) bpm /= 2;] *)
Fixpoint halve_while (fuel : nat) (b : Q) : option Q :=
  if ltb 180 b then
    match fuel with
    | O => None
    | S fuel' => halve_while fuel' (b / 2)
    end
  else Some b.

(** Iteration counts that are always enough for the two loops. *)
Definition double_fuel (b : Q) : nat := Z.to_nat (Qceiling (80 / b)).
Definition halve_fuel (b : Q) : nat := Z.to_nat (Qceiling (b / 180)).

(** The folded, not yet rounded BPM of an onset sequence with at least
    four onsets. *)
Definition folded_bpm (onsets : list Q) : option Q :=
  let bestInterval := snd (best_bin (entries (build_histogram (intervals_of onsets)))) in
  let bpm0 := (60 / bestInterval)%Q in
  match double_while (double_fuel bpm0) bpm0 with
  | None => None
  | Some bpm1 => halve_while (halve_fuel bpm1) bpm1
  end.

(** [estimateBPM(onsets, duration)]; [None] would be a loop that never
    ends (there is none: both folding loops end). *)
Definition estimateBPM (onsets : list Q) (duration : Q) : option TempoEstimate :=
  if (List.length onsets <? 4)%nat
  then Some {| bpm := 120; beatInterval := 1 # 2 |}
  else
    match folded_bpm onsets with
    | None => None
    | Some bpm2 =>
        let beatInterval := (60 / bpm2)%Q in
        Some {| bpm := Math_round bpm2; beatInterval := beatInterval |}
    end.

End AudioAnalyzer.

(** ** The pattern scheduling part of Player *)

Module Player.

Import JS QB.
Import PatternGenerator.

(** An entry of [script.patterns].  [time], [patternName], [pattern] and
    [duration] may be missing ([undefined] or [null]). *)
Record PlayPattern : Type := mkPlayPattern {
  time : option Q;
  patternName : option string;
  pattern : option string;
  duration : option Q;
  rawCommand : option Pattern
}.

Record Script : Type := mkScript {
  type : string;
  loaded : bool;
  patterns : list PlayPattern
}.

(** A queue item: a file with its script, if it has one. *)
Record Item : Type := mkItem {
  script : option Script
}.

Record Device : Type := mkDevice {
  id : string;
  dev_deviceType : option string
}.

(** What the scheduler reads of [LovenseApi]. *)
Record LovenseApi : Type := mkApi {
  isConnected : bool;
  activeDeviceId : option string;
  devices : list Device
}.

(** [this.activePattern]: the entry last shown as active; [sliced] marks
    a resume slice. *)
Record ActivePattern : Type := mkActive {
  entry : PlayPattern;
  shown : option string;
  sliced : bool
}.

(** The calls the player makes to [LovenseApi]: [sendPattern(deviceId,
    pattern, duration, rawCommand)] and [stopDevice(deviceId)]. *)
Inductive event : Type :=
| SendPattern (deviceId : string) (pattern : option string) (duration : Q)
              (rawCommand : option Pattern)
| StopDevice (deviceId : string).

(** The player state the scheduler touches, the API state it reads and
    the device calls made so far (oldest first). *)
Record State : Type := mkState {
  isPlaying : bool;
  currentTime : Q;
  queue : list Item;
  currentQueueIndex : nat;
  activePattern : option ActivePattern;
  lastPatternTime : option Q;
  api : LovenseApi;
  sent : list event
}.

(** [this.activePattern = ap], together with the device calls [evs]
    made at that point. *)
Definition set_activePattern (st : State) (ap : option ActivePattern)
    (evs : list event) : State :=
  {| isPlaying := isPlaying st;
     currentTime := currentTime st;
     queue := queue st;
     currentQueueIndex := currentQueueIndex st;
     activePattern := ap;
     lastPatternTime := lastPatternTime st;
     api := api st;
     sent := sent st ++ evs |}.

(** [this.lastPatternTime = lpt] *)
Definition set_lastPatternTime (st : State) (lpt : option Q) : State :=
  {| isPlaying := isPlaying st;
     currentTime := currentTime st;
     queue := queue st;
     currentQueueIndex := currentQueueIndex st;
     activePattern := activePattern st;
     lastPatternTime := lpt;
     api := api st;
     sent := sent st |}.

Definition set_currentTime (st : State) (t : Q) : State :=
  {| isPlaying := isPlaying st;
     currentTime := t;
     queue := queue st;
     currentQueueIndex := currentQueueIndex st;
     activePattern := activePattern st;
     lastPatternTime := lastPatternTime st;
     api := api st;
     sent := sent st |}.

(** [getCurrentItem()] *)
Definition getCurrentItem (st : State) : option Item :=
  nth_error (queue st) (currentQueueIndex st).

(** [LovenseApi.isConnected && LovenseApi.activeDeviceId]: the device to
    send to, if any (an empty id is falsy). *)
Definition connected_device (a : LovenseApi) : option string :=
  if isConnected a then
    match activeDeviceId a with
    | Some d => if String.eqb d "" then None else Some d
    | None => None
    end
  else None.

(** [LovenseApi.getActiveDevice()?.deviceType] *)
Definition active_deviceType (a : LovenseApi) : option string :=
  match activeDeviceId a with
  | Some d =>
      match find (fun dev => String.eqb (id dev) d) (devices a) with
      | Some dev => dev_deviceType dev
      | None => None
      end
  | None => None
  end.

(** A number used as a condition: missing and [0] are falsy. *)
Definition truthy (x : option Q) : option Q :=
  match x with
  | Some q => if eqb q 0 then None else Some q
  | None => None
  end.

(** [a || rc?.timeSec || 1] *)
Definition duration_or (d : option Q) (rc : option Pattern) : Q :=
  match truthy d with
  | Some q => q
  | None =>
      match truthy (option_map timeSec rc) with
      | Some q => q
      | None => 1%Q
      end
  end.

(** [p.time ?? p.rawCommand?._meta?.startTime ?? 0] *)
Definition start_of (p : PlayPattern) : Q :=
  match time p with
  | Some t => t
  | None =>
      match rawCommand p with
      | Some rc =>
          match _meta rc with
          | Some m => startTime m
          | None => 0%Q
          end
      | None => 0%Q
      end
  end.

(** [p.rawCommand?._meta?.endTime ?? (startTime + (p.duration || p.rawCommand?.timeSec || 1))] *)
Definition end_of (p : PlayPattern) : Q :=
  let fallback := (start_of p + duration_or (duration p) (rawCommand p))%Q in
  match rawCommand p with
  | Some rc =>
      match _meta rc with
      | Some m => endTime m
      | None => fallback
      end
  | None => fallback
  end.

(** [currentTime >= startTime && currentTime < endTime] *)
Definition covers (t : Q) (p : PlayPattern) : bool :=
  leb (start_of p) t && ltb t (end_of p).

(** The index loop of [checkPatternSync]; [None] is [-1]. *)
Fixpoint find_current (ps : list PlayPattern) (t : Q) (i : nat) : option nat :=
  match ps with
  | [] => None
  | p :: rest => if covers t p then Some i else find_current rest t (S i)
  end.

(** [sendPattern(pattern)] *)
Definition sendPattern (st : State) (p : PlayPattern) : State :=
  let '(patternToSend, raw) :=
    match patternName p with
    | Some name =>
        if String.eqb name "" then
          match rawCommand p with
          | Some rc => (pattern p, Some rc)
          | None => (pattern p, None)
          end
        else (getLibraryPattern name (active_deviceType (api st)), None)
    | None =>
        match rawCommand p with
        | Some rc => (pattern p, Some rc)
        | None => (pattern p, None)
        end
    end in
  let ap := {| entry := p; shown := patternToSend; sliced := false |} in
  let evs :=
    match connected_device (api st) with
    | Some dev => [SendPattern dev patternToSend (duration_or (duration p) raw) raw]
    | None => []
    end in
  set_activePattern st (Some ap) evs.

(** [sendPatternAtCurrentTime()]: the path taken when playback starts
    or resumes.  It sends the resume slice of the covering chunk. *)
Definition sendPatternAtCurrentTime (st : State) : result State :=
  match getCurrentItem st with
  | None => Ok st
  | Some item =>
      match script item with
      | None => Ok st
      | Some sc =>
          match find (covers (currentTime st)) (patterns sc) with
          | None => Ok st
          | Some currentPattern =>
              match rawCommand currentPattern with
              | None => Ok st
              | Some rc =>
                  match _meta rc, strength rc with
                  | Some _, Some s =>
                      if String.eqb s "" then Ok st
                      else
                        match createResumePattern rc (currentTime st) with
                        | TypeError => TypeError
                        | Ok None => Ok st
                        | Ok (Some slicedPattern) =>
                            match connected_device (api st) with
                            | None => Ok st
                            | Some dev =>
                                Ok (set_lastPatternTime
                                      (set_activePattern st
                                         (Some {| entry := currentPattern;
                                                  shown := pattern currentPattern;
                                                  sliced := true |})
                                         [SendPattern dev (pattern currentPattern)
                                            (timeSec slicedPattern)
                                            (Some slicedPattern)])
                                      (time currentPattern))
                            end
                        end
                  | _, _ => Ok st
                  end
              end
          end
      end
  end.

Definition PRE_SEND_MS : Q := 2 # 10.

(** [this.lastPatternTime !== nextStartTime] *)
Definition differs (lpt : option Q) (t : Q) : bool :=
  match lpt with
  | Some l => negb (eqb l t)
  | None => true
  end.

(** [Math.abs(this.lastPatternTime - patternStartTime) >= 0.05]; false
    on [NaN]. *)
Definition far_from (lpt : option Q) (t : Q) : bool :=
  match lpt with
  | Some l => leb (5 # 100) (Qabs (l - t))
  | None => false
  end.

(** [checkPatternSync()] *)
Definition checkPatternSync (st : State) : State :=
  match getCurrentItem st with
  | None => st
  | Some item =>
      match script item with
      | None => st
      | Some sc =>
          if negb (String.eqb (type sc) "scripted") || negb (loaded sc) then st
          else if negb (isPlaying st) then st
          else
            let patterns := patterns sc in
            match find_current patterns (currentTime st) 0 with
            | None => st
            | Some currentPatternIndex =>
                match nth_error patterns currentPatternIndex with
                | None => st
                | Some currentPattern =>
                    let patternStartTime := start_of currentPattern in
                    let patternEndTime := end_of currentPattern in
                    let timeUntilEnd := (patternEndTime - currentTime st)%Q in
                    let nextPatternIndex := (currentPatternIndex + 1)%nat in
                    let normal :=
                      if far_from (lastPatternTime st) patternStartTime
                      then sendPattern (set_lastPatternTime st (Some patternStartTime))
                                       currentPattern
                      else st in
                    if leb timeUntilEnd PRE_SEND_MS && ltb 0 timeUntilEnd
                    then
                      match nth_error patterns nextPatternIndex with
                      | Some nextPattern =>
                          let nextStartTime := start_of nextPattern in
                          if differs (lastPatternTime st) nextStartTime
                          then sendPattern (set_lastPatternTime st (Some nextStartTime))
                                           nextPattern
                          else normal
                      | None => normal
                      end
                    else normal
                end
            end
      end
  end.

(** Is the pre-send condition of [checkPatternSync] met: the covering
    pattern ends within [PRE_SEND_MS] and another pattern follows it? *)
Definition presend_due (st : State) : bool :=
  match getCurrentItem st with
  | None => false
  | Some item =>
      match script item with
      | None => false
      | Some sc =>
          match find_current (patterns sc) (currentTime st) 0 with
          | None => false
          | Some currentPatternIndex =>
              match nth_error (patterns sc) currentPatternIndex with
              | None => false
              | Some currentPattern =>
                  let timeUntilEnd := (end_of currentPattern - currentTime st)%Q in
                  leb timeUntilEnd PRE_SEND_MS && ltb 0 timeUntilEnd
                  && match nth_error (patterns sc) (currentPatternIndex + 1) with
                     | Some _ => true
                     | None => false
                     end
              end
          end
      end
  end.

(** The ["timeupdate"] listener, as far as patterns go:
    [this.currentTime = videoElement.currentTime; this.checkPatternSync()]. *)
Definition on_timeupdate (st : State) (videoTime : Q) : State :=
  checkPatternSync (set_currentTime st videoTime).


(** The entry [PatternGenerator.convertOfficialFormat] stores for a
    ["Pattern"] command [p] that carries the metadata [m]:
    [time] is [_meta.startTime || 0], [duration] is [timeSec || 1],
    [rawCommand] is [{ ...p, _meta: { ...p._meta, endTime } }] with
    [endTime = _meta.endTime || (startTime + duration)], and [pattern] is
    the display text [display] (the device call does not use it when a
    raw command goes with it). *)
Definition official_entry (display : string) (p : Pattern) (m : Meta) : PlayPattern :=
  let startTime := or_default (startTime m) 0 in
  let duration := or_default (timeSec p) 1 in
  let endTime := or_default (endTime m) (startTime + duration) in
  {| time := Some startTime;
     patternName := None;
     pattern := Some display;
     duration := Some duration;
     rawCommand := Some {|
       command := command p;
       rule := rule p;
       strength := strength p;
       action := action p;
       timeSec := timeSec p;
       apiVer := apiVer p;
       _meta := Some {|
         PatternGenerator.startTime := PatternGenerator.startTime m;
         PatternGenerator.endTime := endTime;
         points := points m;
         intervalMs := intervalMs m;
         isResumeSlice := isResumeSlice m |} |} |}.

(** The device calls a step added to the log. *)
Definition new_events (before after : State) : list event :=
  skipn (List.length (sent before)) (sent after).

End Player.

(** ** Concrete inputs *)

Module Examples.

Import PatternGenerator.

(** A ["Function"] command of the kind [convertOfficialFormat] accepts:
    an [action], no [strength], no [_meta]. *)
Definition function_command : Pattern :=
  {| command := "Function";
     rule := None;
     strength := None;
     action := Some "Oscillate:12"%string;
     timeSec := 5;
     apiVer := 1;
     _meta := None |}.

(** The chunk of a half-second track with strengths 3, 7, 12, 9, 4, as
    the encoder writes it. *)
Definition short_meta : Meta :=
  {| startTime := 0; endTime := 5 # 10; points := 5; intervalMs := 100;
     isResumeSlice := false |}.

Definition short_chunk : Pattern :=
  {| command := "Pattern";
     rule := Some "V:1;F:v;S:100#"%string;
     strength := Some "3;7;12;9;4"%string;
     action := None;
     timeSec := 5 # 10;
     apiVer := 1;
     _meta := Some short_meta |}.



(** Ten seconds at the fallback tempo with a steady half-level volume. *)
Definition steady_analysis : Analysis.AnalysisResult :=
  {| Analysis.duration := 10;
     Analysis.bpm := 120;
     Analysis.beatInterval := 1 # 2;
     Analysis.volumeData :=
       [Analysis.mkVolumePoint 0 (Analysis.Num (1 # 2)) (1 # 2)] |}.

(** The settings [UI.getSettings] gives when the form is left alone. *)
Definition default_settings : Settings :=
  {| deviceType := "generic-vibe";
     minIntensity := 0;
     maxIntensity := 20;
     onBeatBoost := 12 # 10;
     breakIntensity := 1 # 10 |}.

(** A ten-second track: a hundred intensities, two chunks of fifty. *)
Definition track : list Z := map (fun k => Z.of_nat k mod 21) (seq 0 100).

Definition chunk0 : Pattern := make_pattern "v" track 0.
Definition chunk1 : Pattern := make_pattern "v" track 50.

(** The script entries of the two chunks, with the display texts
    [convertOfficialFormat] computes for them (rounded mean strengths 9
    and 10). *)
Definition entries_of (display : string) (p : Pattern) : list Player.PlayPattern :=
  match _meta p with
  | Some m => [Player.official_entry display p m]
  | None => []
  end.

Definition track_script : Player.Script :=
  {| Player.type := "scripted";
     Player.loaded := true;
     Player.patterns := entries_of "Vibrate:9" chunk0 ++ entries_of "Vibrate:10" chunk1 |}.

(** Playback is running on the track, a device is connected, and the last
    pattern start on record is [lpt]. *)
Definition playing (lpt : Q) : Player.State :=
  {| Player.isPlaying := true;
     Player.currentTime := 0;
     Player.queue := [ {| Player.script := Some track_script |} ];
     Player.currentQueueIndex := 0;
     Player.activePattern := None;
     Player.lastPatternTime := Some lpt;
     Player.api := {| Player.isConnected := true;
                      Player.activeDeviceId := Some "toy1"%string;
                      Player.devices := [ {| Player.id := "toy1";
                                             Player.dev_deviceType := Some "lush"%string |} ] |};
     Player.sent := [] |}.

(** What a device call carries: the start time in the raw command's
    metadata and the decoded strengths. *)
Definition payload (e : Player.event) : option (Q * list (option Z)) :=
  match e with
  | Player.SendPattern _ _ _ (Some rc) =>
      match _meta rc with
      | Some m => Some (startTime m, strengths_of rc)
      | None => None
      end
  | _ => None
  end.

(** Four onsets 0.52 s apart. *)
Definition onsets_052 : list Q := [0; 52 # 100; 104 # 100; 156 # 100]%Q.

(** Three onsets: fewer than the estimator wants. *)
Definition onsets_few : list Q := [1; 15 # 10; 2]%Q.

(** A square root good to three decimals, standing in for [Math.sqrt]. *)
Definition approx_sqrt (x : Q) : Q :=
  (inject_Z (Z.sqrt (Qfloor (x * 1000000))) / 1000)%Q.

(** A sixteenth of a second at 200 Hz: silence with two clicks, 80 ms
    apart. *)
Definition click_samples : list Q :=
  (repeat 0%Q 8 ++ [(9 # 10)%Q; (- (9 # 10))%Q]
   ++ repeat 0%Q 14 ++ [(9 # 10)%Q; (- (9 # 10))%Q] ++ repeat 0%Q 6)%list.

End Examples.

(** ** From the generated commands to the player's script *)

Module Playback.

Import QB PatternGenerator Player.

(** The entry [convertOfficialFormat] pushes for a ["Function"] command:
    the command itself is stored as [rawCommand], the display text is
    its [action]. *)
Definition function_entry (p : Pattern) : PlayPattern :=
  let startTime :=
    or_default (match _meta p with Some m => startTime m | None => 0%Q end) 0 in
  {| time := Some startTime;
     patternName := None;
     pattern := action p;
     duration := Some (or_default (timeSec p) 1);
     rawCommand := Some p |}.

(** One turn of the loop of [convertOfficialFormat].  A command that is
    not a ["Function"] is read as a ["Pattern"]: without a [strength]
    the source raises at [pattern.strength.split], and without [_meta]
    the stored raw command gets a [_meta] that holds an [endTime] only,
    which the record [Meta] does not represent; both give [None] here.
    [display] stands for the display text the source computes from the
    rule and the mean strength. *)
Definition convert_command (display : Pattern -> string) (p : Pattern)
  : option PlayPattern :=
  if String.eqb (command p) "Function" then Some (function_entry p)
  else
    match strength p, _meta p with
    | Some _, Some m => Some (official_entry (display p) p m)
    | _, _ => None
    end.

(** [convertOfficialFormat(officialData)] on [officialData.patterns]. *)
Fixpoint convertOfficialFormat (display : Pattern -> string) (ps : list Pattern)
  : option (list PlayPattern) :=
  match ps with
  | [] => Some []
  | p :: rest =>
      match convert_command display p with
      | None => None
      | Some e =>
          match convertOfficialFormat display rest with
          | None => None
          | Some es => Some (e :: es)
          end
      end
  end.

(** The patterns [checkPatternSync] works on: those of the current
    queue item when it has a loaded script of type ["scripted"]. *)
Definition scripted_patterns (st : State) : option (list PlayPattern) :=
  match getCurrentItem st with
  | None => None
  | Some item =>
      match script item with
      | None => None
      | Some sc =>
          if negb (String.eqb (type sc) "scripted") || negb (loaded sc) then None
          else Some (patterns sc)
      end
  end.

End Playback.

(** ** The analysis worker: beat grid and pattern data *)

Module BeatGrid.

Import JS QB Analysis.


















End BeatGrid.

(** ** The analysis worker as a whole *)

Module AnalysisWorker.

Import JS QB Analysis.


Section Onmessage.

(** [Math.sqrt]. *)
Variable Math_sqrt : Q -> Q.

(** The message: [{ channelData, sampleRate, settings: { intervalMs } }]. *)
Variable channelData : list Q.
Variable rate : Q.
Variable intervalMs : Q.


End Onmessage.

End AnalysisWorker.

(** ** Utils: clamping and the time display *)

Module Utils.

Import JS Str QB.

(** [Utils.clamp(value, min, max)] on numbers that need not be
    integers: [Math.min(Math.max(value, min), max)]. *)
Definition clamp (value min max : Q) : Q := Qmin (Qmax value min) max.






End Utils.

(** ** Player: the volume controls *)

Module VolumeControl.

Import QB.

(** [this.volume] and [this._savedVolume] ([None] until the first
    mute). *)
Record Volume : Type := mkVolume {
  volume : Q;
  _savedVolume : option Q
}.

(** The player as it starts: [volume: 1.0], nothing saved. *)
Definition initial : Volume := {| volume := 1; _savedVolume := None |}.

(** [setVolume(vol)] *)
Definition setVolume (v : Volume) (vol : Q) : Volume :=
  {| volume := Utils.clamp vol 0 1; _savedVolume := _savedVolume v |}.

(** [toggleMute()] *)
Definition toggleMute (v : Volume) : Volume :=
  if ltb 0 (volume v)
  then setVolume {| volume := volume v; _savedVolume := Some (volume v) |} 0
  else setVolume v (match _savedVolume v with
                    | Some s => or_default s 1
                    | None => 1%Q
                    end).

(** [handleVolumeScroll(e)] with [e.deltaY = deltaY]. *)
Definition handleVolumeScroll (v : Volume) (deltaY : Q) : Volume :=
  let delta := if ltb 0 deltaY then (- (5 # 100))%Q else (5 # 100)%Q in
  setVolume v (volume v + delta).

(** The controls a user has. *)
Inductive action : Type :=
| SetVolume (vol : Q)
| ToggleMute
| Scroll (deltaY : Q).

Definition step (v : Volume) (a : action) : Volume :=
  match a with
  | SetVolume vol => setVolume v vol
  | ToggleMute => toggleMute v
  | Scroll deltaY => handleVolumeScroll v deltaY
  end.

End VolumeControl.

(** ** FileHandler: the file list and the active file *)

Module FileList.

Section Files.

(** An entry of [FileHandler.files]. *)
Variable File : Type.

Record State : Type := mkState {
  files : list File;
  activeFileIndex : Z
}.

(** The handler as it starts. *)
Definition initial : State := {| files := []; activeFileIndex := 0 |}.

(** [setActiveFile(index)] *)
Definition setActiveFile (st : State) (index : Z) : State :=
  if (index <? 0) || (Z.of_nat (List.length (files st)) <=? index) then st
  else {| files := files st; activeFileIndex := index |}.

(** [getActiveFile()]: [this.files[this.activeFileIndex] || null]. *)
Definition getActiveFile (st : State) : option File :=
  if activeFileIndex st <? 0 then None
  else nth_error (files st) (Z.to_nat (activeFileIndex st)).

(** [arr.splice(index, 1)] for an integer [index]: a negative index
    counts from the end, an index past the end removes nothing. *)
Definition splice_one (index : Z) (arr : list File) : list File :=
  let len := Z.of_nat (List.length arr) in
  let start := if index <? 0 then Z.max (len + index) 0 else Z.min index len in
  firstn (Z.to_nat start) arr ++ skipn (S (Z.to_nat start)) arr.

(** [removeFile(index)] *)
Definition removeFile (st : State) (index : Z) : State :=
  let files' := splice_one index (files st) in
  let len := Z.of_nat (List.length files') in
  {| files := files';
     activeFileIndex :=
       if len =? 0 then 0
       else if len <=? activeFileIndex st then len - 1
       else activeFileIndex st |}.

(** [clearAll()] *)
Definition clearAll (st : State) : State := {| files := []; activeFileIndex := 0 |}.

(** The end of [handleFiles], once the new entries [added] have been
    pushed: [if (this.files.length > 0 && this.activeFileIndex >= this.files.length)
    this.setActiveFile(0)]. *)
Definition push_files (st : State) (added : list File) : State :=
  let st' := {| files := files st ++ added; activeFileIndex := activeFileIndex st |} in
  if (0 <? Z.of_nat (List.length (files st')))
     && (Z.of_nat (List.length (files st')) <=? activeFileIndex st')
  then setActiveFile st' 0
  else st'.

(** [navigateFile(direction)] *)
Definition navigateFile (st : State) (direction : Z) : State * bool :=
  let newIndex := activeFileIndex st + direction in
  if (0 <=? newIndex) && (newIndex <? Z.of_nat (List.length (files st)))
  then (setActiveFile st newIndex, true)
  else (st, false).

(** What the rest of the application does to the list. *)
Inductive action : Type :=
| SetActive (index : Z)
| Remove (index : Z)
| Clear
| Push (added : list File)
| Navigate (direction : Z).

Definition step (st : State) (a : action) : State :=
  match a with
  | SetActive index => setActiveFile st index
  | Remove index => removeFile st index
  | Clear => clearAll st
  | Push added => push_files st added
  | Navigate direction => fst (navigateFile st direction)
  end.

(** The active index is 0 on an empty list and an index of the list
    otherwise. *)
Definition index_ok (st : State) : bool :=
  if (List.length (files st) =? 0)%nat then activeFileIndex st =? 0
  else (0 <=? activeFileIndex st)
       && (activeFileIndex st <? Z.of_nat (List.length (files st))).

End Files.

End FileList.

(** ** More concrete inputs *)

Module Sessions.

Import PatternGenerator.

(** The display texts of the two chunks of [Examples.track]. *)
Definition track_display (p : Pattern) : string :=
  match _meta p with
  | Some m => if Qeq_bool (startTime m) 0 then "Vibrate:9"%string else "Vibrate:10"%string
  | None => "Vibrate:10"%string
  end.

(** Playback of the ten-second track is started at 7.3 s. *)
Definition seeked : Player.State :=
  Player.set_currentTime (Examples.playing 0) (73 # 10).

(** The player after [sendPatternAtCurrentTime] at 7.3 s. *)
Definition resumed : Player.State :=
  match Player.sendPatternAtCurrentTime seeked with
  | JS.Ok st => st
  | JS.TypeError => seeked
  end.



End Sessions.

(** * Properties *)

(** ** Strings *)

Module StrFacts.

Import Str.

Lemma split_not_nil (sep : ascii) (s : string) : split sep s <> [].
Proof.
  destruct s as [|c s]; simpl; [discriminate|].
  destruct (Ascii.eqb c sep); [discriminate|].
  destruct (split sep s); discriminate.
Qed.


Lemma split_no_sep_string (sep : ascii) (w : string) :
  mem_char sep w = false -> split sep w = [w].
Proof.
  induction w as [|c w IH]; simpl; [reflexivity|].
  intros H. apply orb_false_iff in H. destruct H as [Hc Hw].
  rewrite Hc, (IH Hw). reflexivity.
Qed.

Lemma split_app_sep (sep : ascii) (w rest : string) :
  mem_char sep w = false ->
  split sep (w ++ String sep rest) = w :: split sep rest.
Proof.
  induction w as [|c w IH]; simpl.
  - intros _. rewrite Ascii.eqb_refl. reflexivity.
  - intros H. apply orb_false_iff in H. destruct H as [Hc Hw].
    rewrite Hc, (IH Hw). reflexivity.
Qed.

(** Splitting a joined non-empty array of separator-free pieces gives the
    array back. *)
Lemma split_join (sep : ascii) (l : list string) :
  l <> [] ->
  Forall (fun w => mem_char sep w = false) l ->
  split sep (join sep l) = l.
Proof.
  induction l as [|x xs IH]; [congruence|].
  intros _ HF. inversion HF as [|? ? Hx Hxs]; subst.
  destruct xs as [|y ys].
  - simpl. apply split_no_sep_string; assumption.
  - change (join sep (x :: y :: ys)) with (x ++ String sep (join sep (y :: ys)))%string.
    rewrite split_app_sep by assumption.
    rewrite IH; [reflexivity|discriminate|assumption].
Qed.

Lemma take_digits_uint (d : Decimal.uint) :
  take_digits 10 (NilEmpty.string_of_uint d) = uint_digits d.
Proof.
  induction d; simpl; try reflexivity;
    (etransitivity; [|apply f_equal; exact IHd]); reflexivity.
Qed.

Lemma fold_digits_acc (d : Decimal.uint) (acc : positive) :
  fold_left (fun a x => a * 10 + x) (uint_digits d) (Z.pos acc)
  = Z.pos (Pos.of_uint_acc d acc).
Proof.
  revert acc.
  induction d; intros acc; cbn [uint_digits fold_left Pos.of_uint_acc];
    try reflexivity; rewrite <- IHd; f_equal; lia.
Qed.

Lemma digits_value_uint (d : Decimal.uint) :
  digits_value 10 (uint_digits d) = Z.of_N (Pos.of_uint d).
Proof.
  unfold digits_value.
  induction d; cbn [uint_digits fold_left Pos.of_uint N.of_uint Z.of_N];
    try reflexivity; try exact IHd;
    rewrite <- fold_digits_acc; reflexivity.
Qed.

Lemma uint_digits_nonnil (d : Decimal.uint) : d <> Decimal.Nil -> uint_digits d <> [].
Proof. destruct d; simpl; congruence. Qed.

(** [parseInt] on a non-empty digit string, and on one with a minus
    sign in front. *)
Lemma parseInt_digits (d : Decimal.uint) :
  d <> Decimal.Nil ->
  parseInt (NilEmpty.string_of_uint d) = Some (digits_value 10 (uint_digits d))
  /\ parseInt (String "-" (NilEmpty.string_of_uint d))
     = Some (- digits_value 10 (uint_digits d))
  /\ skip_spaces (NilEmpty.string_of_uint d) = NilEmpty.string_of_uint d.
Proof.
  intros Hd.
  assert (Hp : forall s, take_digits 10 s = uint_digits d -> s = NilEmpty.string_of_uint d ->
     match take_digits 10 s with [] => None | ds => Some (1 * digits_value 10 ds) end
       = Some (digits_value 10 (uint_digits d))
     /\ match take_digits 10 s with [] => None | ds => Some (-1 * digits_value 10 ds) end
       = Some (- digits_value 10 (uint_digits d))).
  { intros s Hs _. rewrite Hs.
    destruct (uint_digits d) eqn:E; [exfalso; revert E; apply uint_digits_nonnil; exact Hd|].
    split; f_equal; lia. }
  specialize (Hp _ (take_digits_uint d) eq_refl). destruct Hp as [Hp1 Hp2].
  destruct d as [|d|d|d|d|d|d|d|d|d|d]; try congruence;
    (split; [|split]; [rewrite <- Hp1|rewrite <- Hp2|]);
    try reflexivity;
    destruct d; reflexivity.
Qed.

Lemma string_of_uint_nonnil (d : Decimal.uint) :
  d <> Decimal.Nil -> NilZero.string_of_uint d = NilEmpty.string_of_uint d.
Proof. destruct d; [congruence|reflexivity..]. Qed.

(** Reading back a printed integer. *)
Lemma parseInt_trim_toString (n : Z) : parseInt_trim (number_toString n) = Some n.
Proof.
  unfold parseInt_trim, number_toString.
  destruct n as [|p|p]; [reflexivity| |];
    pose proof (Unsigned.to_uint_nonnil p) as Hn;
    destruct (parseInt_digits (Pos.to_uint p) Hn) as (H1 & H2 & H3);
    cbn [Z.to_int NilZero.string_of_int];
    rewrite (string_of_uint_nonnil _ Hn).
  - rewrite H3, H1, digits_value_uint, Unsigned.of_to. reflexivity.
  - change (skip_spaces (String "-" (NilEmpty.string_of_uint (Pos.to_uint p))))
      with (String "-" (NilEmpty.string_of_uint (Pos.to_uint p))).
    rewrite H2, digits_value_uint, Unsigned.of_to. reflexivity.
Qed.

Lemma mem_char_digits (d : Decimal.uint) :
  mem_char ";" (NilEmpty.string_of_uint d) = false.
Proof. induction d; simpl; auto. Qed.

(** A printed integer holds no [";"]. *)
Lemma number_toString_no_sep (n : Z) : mem_char ";" (number_toString n) = false.
Proof.
  unfold number_toString.
  destruct n as [|p|p]; simpl; try reflexivity;
    unfold NilZero.string_of_uint;
    destruct (Pos.to_uint p) eqn:E; try reflexivity; rewrite <- E;
    apply mem_char_digits.
Qed.

(** Decoding an encoded non-empty array of integers. *)
Lemma decode_join_numbers (l : list Z) :
  l <> [] ->
  map parseInt_trim (split ";" (join_numbers ";" l)) = map Some l.
Proof.
  intros Hl. unfold join_numbers.
  rewrite split_join.
  - rewrite map_map. apply map_ext. intros n. apply parseInt_trim_toString.
  - destruct l; [congruence|discriminate].
  - apply Forall_forall. intros w Hw. apply in_map_iff in Hw.
    destruct Hw as (n & <- & _). apply number_toString_no_sep.
Qed.


End StrFacts.

(** ** PatternGenerator: the encoder *)

Module CodecFacts.

Import JS Str PatternGenerator.

Lemma chunkSize_at_bounds (allStrengths : list Z) (idx : nat) :
  (idx < List.length allStrengths)%nat ->
  (1 <= chunkSize_at allStrengths idx <= 50)%nat
  /\ (idx + chunkSize_at allStrengths idx <= List.length allStrengths)%nat.
Proof. unfold chunkSize_at. lia. Qed.

Lemma chunk_at_eq (allStrengths : list Z) (idx : nat) :
  chunk_at allStrengths idx
  = firstn (chunkSize_at allStrengths idx) (skipn idx allStrengths).
Proof.
  unfold chunk_at, slice. f_equal. lia.
Qed.

Lemma chunk_at_length (allStrengths : list Z) (idx : nat) :
  (idx < List.length allStrengths)%nat ->
  List.length (chunk_at allStrengths idx) = chunkSize_at allStrengths idx.
Proof.
  intros H. rewrite chunk_at_eq, length_firstn, length_skipn.
  pose proof (chunkSize_at_bounds allStrengths idx H). lia.
Qed.

Lemma chunk_at_nonnil (allStrengths : list Z) (idx : nat) :
  (idx < List.length allStrengths)%nat -> chunk_at allStrengths idx <> [].
Proof.
  intros H E. apply (f_equal (@List.length Z)) in E.
  rewrite chunk_at_length in E by assumption.
  pose proof (chunkSize_at_bounds allStrengths idx H). simpl in E. lia.
Qed.

(** Decoding the command pushed at [idx] gives the chunk cut at [idx]. *)
Lemma strengths_of_make_pattern (featureStr : string) (allStrengths : list Z) (idx : nat) :
  (idx < List.length allStrengths)%nat ->
  strengths_of (make_pattern featureStr allStrengths idx)
  = map Some (chunk_at allStrengths idx).
Proof.
  intros H. unfold strengths_of, strength_tokens, make_pattern. cbn [strength].
  apply StrFacts.decode_join_numbers, chunk_at_nonnil, H.
Qed.

Lemma points_of_make_pattern (featureStr : string) (allStrengths : list Z) (idx : nat) :
  points_of (make_pattern featureStr allStrengths idx)
  = Z.of_nat (List.length (chunk_at allStrengths idx)).
Proof. reflexivity. Qed.

Lemma encode_from_concat (featureStr : string) (allStrengths : list Z) (idx : nat) :
  List.concat (map strengths_of (encode_from featureStr allStrengths idx))
  = map Some (skipn idx allStrengths).
Proof.
  funelim (encode_from featureStr allStrengths idx); cbn [map List.concat].
  - rewrite strengths_of_make_pattern by assumption.
    rewrite H, chunk_at_eq, <- map_app. f_equal.
    rewrite (Nat.add_comm idx), <- skipn_skipn. apply firstn_skipn.
  - rewrite skipn_all2 by lia. reflexivity.
Qed.

Lemma encode_from_length (featureStr : string) (allStrengths : list Z) (idx : nat) :
  List.length (encode_from featureStr allStrengths idx)
  = ((List.length allStrengths - idx + 49) / 50)%nat.
Proof.
  funelim (encode_from featureStr allStrengths idx); cbn [List.length].
  - rewrite H. unfold chunkSize_at.
    destruct (Nat.le_gt_cases 50 (List.length allStrengths - idx)) as [Hge|Hlt].
    + rewrite Nat.min_l by assumption.
      replace (List.length allStrengths - idx + 49)%nat
        with (List.length allStrengths - (idx + 50) + 49 + 1 * 50)%nat by lia.
      rewrite Nat.div_add by lia. lia.
    + rewrite Nat.min_r by lia.
      replace (List.length allStrengths - (idx + (List.length allStrengths - idx)) + 49)%nat
        with 49%nat by lia.
      rewrite (Nat.div_small 49 50) by lia.
      apply (Nat.div_unique _ 50 1 (List.length allStrengths - idx - 1)); lia.
  - replace (List.length allStrengths - idx + 49)%nat with 49%nat by lia. reflexivity.
Qed.

Lemma encode_from_points (featureStr : string) (allStrengths : list Z) (idx : nat) :
  fold_right Z.add 0 (map points_of (encode_from featureStr allStrengths idx))
  = Z.of_nat (List.length allStrengths - idx).
Proof.
  funelim (encode_from featureStr allStrengths idx); cbn [map fold_right].
  - rewrite H, points_of_make_pattern, chunk_at_length by assumption.
    pose proof (chunkSize_at_bounds allStrengths idx l). lia.
  - lia.
Qed.

Lemma encode_from_sizes (featureStr : string) (allStrengths : list Z) (idx : nat) :
  Forall (fun p => (1 <= List.length (strengths_of p) <= 50)%nat
                   /\ points_of p = Z.of_nat (List.length (strengths_of p)))
         (encode_from featureStr allStrengths idx).
Proof.
  funelim (encode_from featureStr allStrengths idx).
  - constructor; [|exact H].
    rewrite strengths_of_make_pattern, points_of_make_pattern, length_map by assumption.
    rewrite chunk_at_length by assumption.
    pose proof (chunkSize_at_bounds allStrengths idx l). lia.
  - constructor.
Qed.


(** [ceil(n / 50)] on integers. *)
Lemma ceil_div_50 (n : nat) :
  Math_ceil (inject_Z (Z.of_nat n) / 50) = Z.of_nat ((n + 49) / 50).
Proof.
  unfold Math_ceil, Qceiling, Qfloor, Qdiv, Qmult, Qinv, Qopp, inject_Z.
  cbn [Qnum Qden].
  rewrite Nat2Z.inj_div, Nat2Z.inj_add.
  change (Z.pos (1 * 50)) with 50. change (Z.of_nat 50) with 50.
  change (Z.of_nat 49) with 49.
  generalize (Z.of_nat n). intros z.
  pose proof (Z.div_mod (- (z * 1)) 50 ltac:(lia)).
  pose proof (Z.mod_pos_bound (- (z * 1)) 50 ltac:(lia)).
  pose proof (Z.div_mod (z + 49) 50 ltac:(lia)).
  pose proof (Z.mod_pos_bound (z + 49) 50 ltac:(lia)).
  lia.
Qed.

End CodecFacts.

(** C6.  For every intensity sequence fed to the encoder: the chunks'
    point counts (the [_meta.points] fields, and the numbers of values
    actually held) add up to the length of the input; the chunks' value
    lists, decoded the way [convertOfficialFormat] reads them and
    concatenated in order, are the input sequence; every chunk holds at
    most 50 values; and there are [ceil(totalTicks / 50)] chunks. *)
Theorem encode_round_trip (featureStr : string) (allStrengths : list Z) :
  let ps := PatternGenerator.encode featureStr allStrengths in
  fold_right Z.add 0 (map PatternGenerator.points_of ps)
    = Z.of_nat (List.length allStrengths)
  /\ list_sum (map (fun p => List.length (PatternGenerator.strengths_of p)) ps)
    = List.length allStrengths
  /\ List.concat (map PatternGenerator.strengths_of ps) = map Some allStrengths
  /\ Forall (fun p => (List.length (PatternGenerator.strengths_of p) <= 50)%nat) ps
  /\ Z.of_nat (List.length ps)
    = JS.Math_ceil (inject_Z (Z.of_nat (List.length allStrengths)) / 50).
Proof.
  intros ps. unfold ps, PatternGenerator.encode.
  pose proof (CodecFacts.encode_from_concat featureStr allStrengths 0) as Hc.
  cbn [skipn] in Hc.
  repeat split.
  - rewrite CodecFacts.encode_from_points. f_equal. lia.
  - rewrite <- (map_map PatternGenerator.strengths_of (@List.length (option Z))).
    rewrite <- length_concat, Hc. apply length_map.
  - exact Hc.
  - eapply Forall_impl; [|apply CodecFacts.encode_from_sizes].
    cbv beta. intros p Hp. lia.
  - rewrite CodecFacts.encode_from_length, CodecFacts.ceil_div_50.
    do 2 f_equal. lia.
Qed.

(** ** Boolean comparisons on rationals *)

Module QBFacts.

Import QB.

Lemma leb_true (x y : Q) : leb x y = true <-> (x <= y)%Q.
Proof. unfold leb. apply Qle_bool_iff. Qed.

Lemma leb_false (x y : Q) : leb x y = false <-> (y < x)%Q.
Proof.
  unfold leb. split; intros H.
  - apply Qnot_le_lt. intros Hle. apply Qle_bool_iff in Hle. congruence.
  - destruct (Qle_bool x y) eqn:E; [|reflexivity].
    apply Qle_bool_iff in E. exfalso. exact (Qlt_not_le _ _ H E).
Qed.

Lemma ltb_true (x y : Q) : ltb x y = true <-> (x < y)%Q.
Proof.
  unfold ltb. rewrite negb_true_iff. apply (leb_false y x).
Qed.

Lemma ltb_false (x y : Q) : ltb x y = false <-> (y <= x)%Q.
Proof.
  unfold ltb. rewrite negb_false_iff. apply (leb_true y x).
Qed.

Lemma eqb_true (x y : Q) : eqb x y = true <-> (x == y)%Q.
Proof. unfold eqb. apply Qeq_bool_iff. Qed.

Lemma eqb_false (x y : Q) : eqb x y = false <-> ~ (x == y)%Q.
Proof.
  unfold eqb. split; intros H.
  - intros E. apply Qeq_bool_iff in E. congruence.
  - destruct (Qeq_bool x y) eqn:E; [|reflexivity].
    apply Qeq_bool_iff in E. contradiction.
Qed.

(** Moving a positive divisor across an inequality. *)
Lemma div_le_mul (x b c : Q) : (0 < b)%Q -> (x / b <= c)%Q -> (x <= c * b)%Q.
Proof.
  intros Hb H.
  assert (E : (x == (x / b) * b)%Q).
  { rewrite Qmult_comm, Qmult_div_r; [reflexivity|]. intros E. rewrite E in Hb.
    exact (Qlt_irrefl _ Hb). }
  rewrite E. apply Qmult_le_compat_r; [exact H|]. apply Qlt_le_weak, Hb.
Qed.

End QBFacts.

(** ** PatternGenerator: the resume slice *)

Module ResumeFacts.

Import JS Str QB PatternGenerator.




End ResumeFacts.

(** C10.  A command without [_meta] (a ["Function"] command, an imported
    simple pattern) comes back from the resume slice as it is, whatever
    the query time: the call returns normally, with the same object, not
    [null] and not a slice. *)
Theorem createResumePattern_no_meta (p : PatternGenerator.Pattern) (currentTime : Q) :
  PatternGenerator._meta p = None ->
  PatternGenerator.createResumePattern p currentTime = JS.Ok (Some p).
Proof.
  intros H. unfold PatternGenerator.createResumePattern. rewrite H. reflexivity.
Qed.

Lemma createResumePattern_no_meta_witness :
  PatternGenerator._meta Examples.function_command = None
  /\ PatternGenerator.createResumePattern Examples.function_command (73 # 10)
     = JS.Ok (Some Examples.function_command).
Proof.
  split; [reflexivity|].
  apply (createResumePattern_no_meta Examples.function_command (73 # 10)).
  reflexivity.
Defined.



(** ** PatternGenerator: the intensity mapping *)

Module GenerateFacts.

Import JS QB PatternGenerator.

(** The beat loop ends when the beat interval is positive. *)
Lemma build_beats_total (duration beatInterval : Q) :
  (0 < beatInterval)%Q ->
  forall (fuel : nat) (t : Q),
    ((duration - t) / beatInterval <= inject_Z (Z.of_nat fuel))%Q ->
    exists beats, build_beats fuel duration beatInterval t = Some beats.
Proof.
  intros Hb. induction fuel as [|fuel IH]; intros t Hf; cbn [build_beats].
  - destruct (ltb t duration) eqn:E; [|eexists; reflexivity].
    apply QBFacts.ltb_true in E. exfalso.
    assert (0 < (duration - t) / beatInterval)%Q.
    { apply Qlt_shift_div_l; [exact Hb|]. lra. }
    change (inject_Z (Z.of_nat 0)) with 0%Q in Hf. lra.
  - destruct (ltb t duration) eqn:E; [|eexists; reflexivity].
    destruct (IH (t + beatInterval)%Q) as [bs Hbs]; [|rewrite Hbs; eexists; reflexivity].
    rewrite Nat2Z.inj_succ in Hf. unfold Z.succ in Hf. rewrite inject_Z_plus in Hf.
    apply Qle_shift_div_r; [exact Hb|].
    pose proof (QBFacts.div_le_mul _ _ _ Hb Hf) as H.
    change (inject_Z 1) with 1%Q in H. lra.
Qed.

Lemma beats_fuel_enough (duration beatInterval : Q) :
  (0 < beatInterval)%Q ->
  ((duration - 0) / beatInterval
     <= inject_Z (Z.of_nat (beats_fuel duration beatInterval)))%Q.
Proof.
  intros Hb. unfold beats_fuel.
  assert (E : (duration - 0 == duration)%Q) by lra. rewrite E.
  eapply Qle_trans; [apply Qle_ceiling|].
  rewrite <- Zle_Qle. lia.
Qed.

Lemma all_strengths_length (s : Settings) (a : Analysis.AnalysisResult) (beats : list Q) :
  List.length (all_strengths s a beats)
  = Z.to_nat (calc_totalSteps (Analysis.duration a)).
Proof. unfold all_strengths. rewrite length_map, length_seq. reflexivity. Qed.



(** The floor is the integer just below. *)
Lemma Qfloor_unique (x : Q) (k : Z) :
  (inject_Z k <= x)%Q -> (x < inject_Z (k + 1))%Q -> Qfloor x = k.
Proof.
  intros Hlo Hhi.
  pose proof (Qfloor_le x) as H1. pose proof (Qlt_floor x) as H2.
  assert (Ha : (inject_Z (Qfloor x) < inject_Z (k + 1))%Q) by (eapply Qle_lt_trans; eauto).
  assert (Hb : (inject_Z k < inject_Z (Qfloor x + 1))%Q) by (eapply Qle_lt_trans; eauto).
  rewrite <- Zlt_Qlt in Ha, Hb. lia.
Qed.

(** Rounding an integer leaves it alone. *)
Lemma Math_round_integer (x : Q) (k : Z) : (x == inject_Z k)%Q -> Math_round x = k.
Proof.
  intros E. unfold Math_round. apply Qfloor_unique.
  - rewrite E. lra.
  - rewrite E, inject_Z_plus. change (inject_Z 1) with 1%Q. lra.
Qed.



End GenerateFacts.




(** ** AudioAnalyzer: the tempo estimate *)

Module TempoFacts.

Import JS QB AudioAnalyzer.

(** The doubling loop ends, at 80 or above, for a positive start. *)
Lemma double_while_spec (fuel : nat) :
  forall b : Q,
    (0 < b)%Q ->
    (80 <= b * (inject_Z (Z.of_nat fuel) + 1))%Q ->
    exists r, double_while fuel b = Some r /\ (80 <= r)%Q.
Proof.
  induction fuel as [|fuel IH]; intros b Hb Hf; cbn [double_while].
  - change (inject_Z (Z.of_nat 0)) with 0%Q in Hf.
    assert (E : ltb b 80 = false) by (apply QBFacts.ltb_false; lra).
    rewrite E. exists b. split; [reflexivity|lra].
  - destruct (ltb b 80) eqn:E1; cbn [andb].
    + assert (E2 : ltb 0 b = true) by (apply QBFacts.ltb_true; exact Hb).
      rewrite E2. apply IH; [lra|].
      rewrite Nat2Z.inj_succ in Hf. unfold Z.succ in Hf. rewrite inject_Z_plus in Hf.
      change (inject_Z 1) with 1%Q in Hf.
      assert (0 <= inject_Z (Z.of_nat fuel))%Q
        by (change 0%Q with (inject_Z 0); rewrite <- Zle_Qle; lia).
      nra.
    + apply QBFacts.ltb_false in E1. exists b. split; [reflexivity|exact E1].
Qed.

(** The halving loop ends, within [[80, 180]], for a start of 80 or more. *)
Lemma halve_while_spec (fuel : nat) :
  forall b : Q,
    (80 <= b)%Q ->
    (b <= 180 * (inject_Z (Z.of_nat fuel) + 1))%Q ->
    exists r, halve_while fuel b = Some r /\ (80 <= r <= 180)%Q.
Proof.
  induction fuel as [|fuel IH]; intros b Hb Hf; cbn [halve_while].
  - change (inject_Z (Z.of_nat 0)) with 0%Q in Hf.
    assert (E : ltb 180 b = false) by (apply QBFacts.ltb_false; lra).
    rewrite E. exists b. split; [reflexivity|lra].
  - destruct (ltb 180 b) eqn:E1.
    + apply QBFacts.ltb_true in E1.
      assert (Eh : (b / 2 == b * (1 # 2))%Q)
        by (unfold Qdiv; apply Qmult_comp; reflexivity).
      apply IH.
      * rewrite Eh. lra.
      * rewrite Eh.
        rewrite Nat2Z.inj_succ in Hf. unfold Z.succ in Hf. rewrite inject_Z_plus in Hf.
        change (inject_Z 1) with 1%Q in Hf.
        assert (0 <= inject_Z (Z.of_nat fuel))%Q
          by (change 0%Q with (inject_Z 0); rewrite <- Zle_Qle; lia).
        lra.
    + apply QBFacts.ltb_false in E1. exists b. split; [reflexivity|lra].
Qed.

Lemma ceiling_fuel (x : Q) : (x <= inject_Z (Z.of_nat (Z.to_nat (Qceiling x))))%Q.
Proof.
  eapply Qle_trans; [apply Qle_ceiling|]. rewrite <- Zle_Qle. lia.
Qed.

Lemma double_fuel_enough (b : Q) :
  (0 < b)%Q -> (80 <= b * (inject_Z (Z.of_nat (double_fuel b)) + 1))%Q.
Proof.
  intros Hb. unfold double_fuel.
  pose proof (ceiling_fuel (80 / b)) as H.
  apply (QBFacts.div_le_mul _ _ _ Hb) in H.
  set (f := inject_Z (Z.of_nat (Z.to_nat (Qceiling (80 / b))))) in *.
  nra.
Qed.

Lemma halve_fuel_enough (b : Q) :
  (b <= 180 * (inject_Z (Z.of_nat (halve_fuel b)) + 1))%Q.
Proof.
  unfold halve_fuel.
  pose proof (ceiling_fuel (b / 180)) as H.
  assert (H180 : (0 < 180)%Q) by reflexivity.
  apply (QBFacts.div_le_mul _ _ _ H180) in H.
  set (f := inject_Z (Z.of_nat (Z.to_nat (Qceiling (b / 180))))) in *.
  lra.
Qed.

(** Every bin of an interval of a quarter second or more is positive. *)
Lemma bin_of_positive (interval : Q) : (25 # 100 <= interval)%Q -> (0 < bin_of interval)%Q.
Proof.
  intros H. unfold bin_of, Math_round, binSize.
  assert (Hk : 13 <= Qfloor (interval / (2 # 100) + (1 # 2))).
  { change 13 with (Qfloor 13). apply Qfloor_resp_le.
    assert (E : (interval / (2 # 100) == interval * 50)%Q)
      by (unfold Qdiv; apply Qmult_comp; reflexivity).
    rewrite E. lra. }
  assert (Hq : (13 <= inject_Z (Qfloor (interval / (2 # 100) + (1 # 2))))%Q).
  { change 13%Q with (inject_Z 13). rewrite <- Zle_Qle. exact Hk. }
  lra.
Qed.

Lemma hist_incr_positive (h : histogram) (bin : Q) :
  keys_positive h -> (0 < bin)%Q -> keys_positive (hist_incr h bin).
Proof.
  unfold keys_positive. intros Hh Hb.
  induction h as [|[k c] rest IH]; cbn [hist_incr].
  - constructor; [exact Hb|constructor].
  - inversion Hh; subst. destruct (eqb k bin); constructor; auto.
Qed.

Lemma build_histogram_positive (intervals : list Q) :
  keys_positive (build_histogram intervals).
Proof.
  unfold build_histogram.
  assert (G : forall h, keys_positive h ->
            keys_positive
              (fold_left
                 (fun h interval =>
                    if leb (25 # 100) interval && leb interval 1
                    then hist_incr h (bin_of interval) else h) intervals h)).
  { induction intervals as [|x xs IH]; intros h Hh; cbn [fold_left]; [exact Hh|].
    apply IH. destruct (leb (25 # 100) x) eqn:E; cbn [andb]; [|exact Hh].
    destruct (leb x 1); [|exact Hh].
    apply hist_incr_positive; [exact Hh|].
    apply bin_of_positive, QBFacts.leb_true, E. }
  apply G. constructor.
Qed.

Lemma insert_entry_positive (e : Q * Z) (l : histogram) :
  (0 < fst e)%Q -> keys_positive l -> keys_positive (insert_entry e l).
Proof.
  unfold keys_positive. intros He Hl.
  induction l as [|x rest IH]; cbn [insert_entry].
  - constructor; [exact He|constructor].
  - inversion Hl; subst. destruct (leb (fst e) (fst x)); constructor; auto.
Qed.

Lemma entries_positive (h : histogram) : keys_positive h -> keys_positive (entries h).
Proof.
  unfold keys_positive, entries. intros Hh. apply Forall_app. split.
  - unfold sort_entries.
    assert (Hf : Forall (fun e => (0 < fst e)%Q)
                   (filter (fun e => is_array_index (fst e)) h)).
    { apply Forall_forall. intros e He. apply filter_In in He.
      destruct He as [He _]. revert e He. apply Forall_forall. exact Hh. }
    induction Hf as [|e l He Hl IH]; cbn [fold_right]; [constructor|].
    apply insert_entry_positive; assumption.
  - apply Forall_forall. intros e He. apply filter_In in He.
    destruct He as [He _]. revert e He. apply Forall_forall. exact Hh.
Qed.

Lemma best_bin_positive (es : histogram) :
  keys_positive es -> (0 < snd (best_bin es))%Q.
Proof.
  unfold best_bin, keys_positive.
  assert (G : forall acc : Z * Q, (0 < snd acc)%Q -> Forall (fun e => (0 < fst e)%Q) es ->
            (0 < snd (fold_left
                        (fun acc e => if fst acc <? snd e then (snd e, fst e) else acc)
                        es acc))%Q).
  { induction es as [|e rest IH]; intros acc Ha Hes; cbn [fold_left]; [exact Ha|].
    inversion Hes; subst. apply IH; [|assumption].
    destruct (fst acc <? snd e); [cbn [snd]; assumption|exact Ha]. }
  intros H. apply G; [reflexivity|exact H].
Qed.

(** The folding loops end, inside [[80, 180]]. *)
Lemma folded_bpm_spec (onsets : list Q) :
  exists folded, folded_bpm onsets = Some folded /\ (80 <= folded <= 180)%Q.
Proof.
  unfold folded_bpm.
  set (best := snd (best_bin (entries (build_histogram (intervals_of onsets))))).
  assert (Hbest : (0 < best)%Q)
    by (apply best_bin_positive, entries_positive, build_histogram_positive).
  assert (H0 : (0 < 60 / best)%Q) by (apply Qlt_shift_div_l; [exact Hbest|lra]).
  destruct (double_while_spec _ _ H0 (double_fuel_enough _ H0)) as (r1 & E1 & Hr1).
  rewrite E1.
  destruct (halve_while_spec _ _ Hr1 (halve_fuel_enough r1)) as (r2 & E2 & Hr2).
  exists r2. split; assumption.
Qed.

(** Rounding stays inside integer bounds. *)
Lemma Math_round_bounds (x : Q) (lo hi : Z) :
  (inject_Z lo <= x <= inject_Z hi)%Q -> lo <= Math_round x <= hi.
Proof.
  intros [Hlo Hhi]. unfold Math_round. split.
  - rewrite <- (Qfloor_Z lo). apply Qfloor_resp_le. lra.
  - assert (H : Qfloor (x + (1 # 2)) <= Qfloor (inject_Z hi + (1 # 2)))
      by (apply Qfloor_resp_le; lra).
    rewrite (GenerateFacts.Qfloor_unique (inject_Z hi + (1 # 2)) hi) in H; [exact H|lra|].
    rewrite inject_Z_plus. change (inject_Z 1) with 1%Q. lra.
Qed.

End TempoFacts.

(** C4, as stated, fails.  For four onsets 0.52 s apart the estimator
    returns [bpm = 115] (60 / 0.52 = 115.38..., rounded) and
    [beatInterval = 0.52], which is not [60 / 115]. *)
Lemma estimateBPM_counterexample :
  exists t,
    AudioAnalyzer.estimateBPM Examples.onsets_052 2 = Some t
    /\ AudioAnalyzer.bpm t = 115
    /\ (AudioAnalyzer.beatInterval t == 52 # 100)%Q
    /\ ~ (AudioAnalyzer.beatInterval t == 60 / inject_Z (AudioAnalyzer.bpm t))%Q.
Proof.
  eexists. split; [vm_compute; reflexivity|].
  split; [reflexivity|]. split; [reflexivity|].
  vm_compute. discriminate.
Qed.

(** C4, amended.  For every onset sequence and track duration the
    estimator returns a result: the folded BPM lies in [[80, 180]], the
    returned [bpm] is that value rounded to the nearest integer (so an
    integer in [[80, 180]]), and [beatInterval] is 60 divided by the
    folded BPM before rounding; with fewer than four onsets the result is
    [bpm = 120], [beatInterval = 0.5]. *)
Theorem estimateBPM_spec (onsets : list Q) (duration : Q) :
  exists t folded,
    AudioAnalyzer.estimateBPM onsets duration = Some t
    /\ 80 <= AudioAnalyzer.bpm t <= 180
    /\ (80 <= folded <= 180)%Q
    /\ AudioAnalyzer.bpm t = JS.Math_round folded
    /\ (AudioAnalyzer.beatInterval t == 60 / folded)%Q
    /\ ((List.length onsets < 4)%nat ->
        AudioAnalyzer.bpm t = 120 /\ AudioAnalyzer.beatInterval t = 1 # 2).
Proof.
  unfold AudioAnalyzer.estimateBPM.
  destruct (List.length onsets <? 4)%nat eqn:E.
  - eexists. exists 120%Q. split; [reflexivity|].
    cbn [AudioAnalyzer.bpm AudioAnalyzer.beatInterval].
    repeat split; try reflexivity; try lia; discriminate.
  - destruct (TempoFacts.folded_bpm_spec onsets) as (folded & Hf & Hr).
    rewrite Hf. eexists. exists folded. split; [reflexivity|].
    cbn [AudioAnalyzer.bpm AudioAnalyzer.beatInterval].
    split; [apply TempoFacts.Math_round_bounds; exact Hr|].
    split; [exact Hr|]. split; [reflexivity|]. split; [reflexivity|].
    intros Hlt. apply Nat.ltb_ge in E. lia.
Qed.

Lemma estimateBPM_spec_witness :
  (List.length Examples.onsets_few < 4)%nat
  /\ exists t,
       AudioAnalyzer.estimateBPM Examples.onsets_few 3 = Some t
       /\ AudioAnalyzer.bpm t = 120 /\ AudioAnalyzer.beatInterval t = 1 # 2.
Proof.
  assert (H : (List.length Examples.onsets_few < 4)%nat) by (vm_compute; lia).
  split; [exact H|].
  destruct (estimateBPM_spec Examples.onsets_few 3) as (t & folded & Ht & _ & _ & _ & _ & Hfew).
  exists t. split; [exact Ht|]. exact (Hfew H).
Defined.

(** ** AudioAnalyzer: the volume curve *)

Module VolumeFacts.

Import JS QB Analysis AudioAnalyzer.






(** The fuel of the volume loop is never used up: more fuel gives the
    same curve. *)
Lemma volume_loop_fuel_enough (Math_sqrt : Q -> Q) (channelData : list Q)
    (sampleRate : Q) (fuel : nat) :
  forall (t : Q) (extra : nat),
    ((duration_of channelData sampleRate - t) / analysisStep
       <= inject_Z (Z.of_nat fuel))%Q ->
    volume_loop Math_sqrt channelData sampleRate (fuel + extra) t
    = volume_loop Math_sqrt channelData sampleRate fuel t.
Proof.
  assert (Hstep : (0 < analysisStep)%Q) by reflexivity.
  induction fuel as [|fuel IH]; intros t extra Hf.
  - apply (QBFacts.div_le_mul _ _ _ Hstep) in Hf.
    change (inject_Z (Z.of_nat 0)) with 0%Q in Hf.
    assert (E : ltb t (duration_of channelData sampleRate) = false)
      by (apply QBFacts.ltb_false; lra).
    destruct extra; cbn [Nat.add volume_loop]; rewrite E; reflexivity.
  - cbn [Nat.add volume_loop].
    destruct (ltb t (duration_of channelData sampleRate)); [|reflexivity].
    f_equal. apply IH.
    apply (QBFacts.div_le_mul _ _ _ Hstep) in Hf.
    rewrite Nat2Z.inj_succ in Hf. unfold Z.succ in Hf. rewrite inject_Z_plus in Hf.
    change (inject_Z 1) with 1%Q in Hf.
    apply Qle_shift_div_r; [exact Hstep|]. lra.
Qed.


End VolumeFacts.

(** ** AudioAnalyzer: the onset detector *)

Module OnsetFacts.

Import JS QB AudioAnalyzer.



Section Loop.

Variable Math_sqrt : Q -> Q.
Variable channelData : list Q.
Variable sampleRate : Q.





End Loop.

End OnsetFacts.

(** ** The worker's passes, for any square root *)

Section WorkerProperties.

Import Analysis AudioAnalyzer.

(** [Math.sqrt], of which only this is used: a square root is not
    negative. *)
Variable Math_sqrt : Q -> Q.
Hypothesis Math_sqrt_nonneg : forall x : Q, (0 <= Math_sqrt x)%Q.




End WorkerProperties.




(** ** Player: what the time-update handler does in general *)

Module SchedulerFacts.

Import JS QB Player.

(** A start time is not far from itself. *)
Lemma far_from_self (t : Q) : far_from (Some t) t = false.
Proof.
  unfold far_from. apply QBFacts.leb_false.
  assert (E : (t - t == 0)%Q) by lra.
  rewrite E. reflexivity.
Qed.

(** Sending a pattern leaves the queue, the clock and the play flag as
    they are. *)
Lemma sendPattern_frame (st : State) (p : PlayPattern) :
  queue (sendPattern st p) = queue st
  /\ currentQueueIndex (sendPattern st p) = currentQueueIndex st
  /\ currentTime (sendPattern st p) = currentTime st
  /\ isPlaying (sendPattern st p) = isPlaying st
  /\ lastPatternTime (sendPattern st p) = lastPatternTime st.
Proof.
  unfold sendPattern.
  destruct (patternName p) as [name|]; [destruct (String.eqb name "")|];
    destruct (rawCommand p); repeat split; reflexivity.
Qed.

(** Outside the pre-send window the handler either does nothing or
    sends the covering pattern and records its start. *)
Lemma checkPatternSync_outside_window (st : State) :
  presend_due st = false ->
  checkPatternSync st = st
  \/ exists item sc i cur,
       getCurrentItem st = Some item
       /\ script item = Some sc
       /\ negb (String.eqb (type sc) "scripted") || negb (loaded sc) = false
       /\ isPlaying st = true
       /\ find_current (patterns sc) (currentTime st) 0 = Some i
       /\ nth_error (patterns sc) i = Some cur
       /\ checkPatternSync st
          = sendPattern (set_lastPatternTime st (Some (start_of cur))) cur.
Proof.
  unfold presend_due, checkPatternSync. intros H.
  destruct (getCurrentItem st) as [item|] eqn:Ei; [|left; reflexivity].
  destruct (script item) as [sc|] eqn:Es; [|left; reflexivity].
  destruct (negb (String.eqb (type sc) "scripted") || negb (loaded sc)) eqn:Eg;
    [left; reflexivity|].
  destruct (isPlaying st) eqn:Ep; cbn [negb]; [|left; reflexivity].
  destruct (find_current (patterns sc) (currentTime st) 0) as [i|] eqn:Ef;
    [|left; reflexivity].
  destruct (nth_error (patterns sc) i) as [cur|] eqn:Ec; [|left; reflexivity].
  cbv zeta in H |- *.
  assert (G : (if far_from (lastPatternTime st) (start_of cur)
               then sendPattern (set_lastPatternTime st (Some (start_of cur))) cur
               else st) = st
              \/ (if far_from (lastPatternTime st) (start_of cur)
                  then sendPattern (set_lastPatternTime st (Some (start_of cur))) cur
                  else st)
                 = sendPattern (set_lastPatternTime st (Some (start_of cur))) cur).
  { destruct (far_from (lastPatternTime st) (start_of cur)); [right|left]; reflexivity. }
  destruct (leb (end_of cur - currentTime st) PRE_SEND_MS
            && ltb 0 (end_of cur - currentTime st)) eqn:Ew.
  - destruct (nth_error (patterns sc) (i + 1)) as [next|]; [discriminate H|].
    destruct G as [G|G]; [left; exact G|].
    right. exists item, sc, i, cur. repeat split; try assumption; reflexivity.
  - destruct G as [G|G]; [left; exact G|].
    right. exists item, sc, i, cur. repeat split; try assumption; reflexivity.
Qed.

(** Outside the pre-send window a second call with the same time makes
    no device call and changes nothing. *)
Lemma checkPatternSync_idempotent_outside_window (st : State) :
  presend_due st = false ->
  checkPatternSync (checkPatternSync st) = checkPatternSync st.
Proof.
  intros H.
  destruct (checkPatternSync_outside_window st H)
    as [E|(item & sc & i & cur & Ei & Es & Eg & Ep & Ef & Ec & E)].
  - rewrite E. exact E.
  - rewrite E.
    set (st1 := sendPattern (set_lastPatternTime st (Some (start_of cur))) cur).
    destruct (sendPattern_frame (set_lastPatternTime st (Some (start_of cur))) cur)
      as (Hq & Hi & Ht & Hp & Hl).
    fold st1 in Hq, Hi, Ht, Hp, Hl. cbn in Hq, Hi, Ht, Hp, Hl.
    unfold presend_due in H. rewrite Ei, Es, Ef, Ec in H. cbv zeta in H.
    unfold checkPatternSync, getCurrentItem.
    rewrite Hq, Hi. fold (getCurrentItem st). rewrite Ei, Es, Eg, Hp, Ep.
    cbn [negb]. rewrite Ht, Ef, Ec. cbv zeta.
    rewrite Hl, far_from_self.
    destruct (leb (end_of cur - currentTime st) PRE_SEND_MS
              && ltb 0 (end_of cur - currentTime st)); [|reflexivity].
    destruct (nth_error (patterns sc) (i + 1)); [discriminate H|reflexivity].
Qed.

(** Inside the pre-send window, once the next pattern's start is on
    record, the guard skips the pre-send and control reaches the normal
    send: when the two starts are 50 ms or more apart the covering
    pattern is sent again and its start goes back on record. *)
Lemma checkPatternSync_after_presend
    (st : State) (item : Item) (sc : Script) (i : nat) (cur next : PlayPattern) :
  getCurrentItem st = Some item ->
  script item = Some sc ->
  negb (String.eqb (type sc) "scripted") || negb (loaded sc) = false ->
  isPlaying st = true ->
  find_current (patterns sc) (currentTime st) 0 = Some i ->
  nth_error (patterns sc) i = Some cur ->
  nth_error (patterns sc) (i + 1) = Some next ->
  lastPatternTime st = Some (start_of next) ->
  (5 # 100 <= Qabs (start_of next - start_of cur))%Q ->
  checkPatternSync st = sendPattern (set_lastPatternTime st (Some (start_of cur))) cur.
Proof.
  intros Ei Es Eg Ep Ef Ec En El Hfar.
  unfold checkPatternSync. rewrite Ei, Es, Eg, Ep. cbn [negb].
  rewrite Ef, Ec. cbv zeta. rewrite En, El.
  assert (E1 : differs (Some (start_of next)) (start_of next) = false).
  { unfold differs. apply negb_false_iff, QBFacts.eqb_true. reflexivity. }
  assert (E2 : far_from (Some (start_of next)) (start_of cur) = true).
  { unfold far_from. apply QBFacts.leb_true. exact Hfar. }
  rewrite E1, E2.
  destruct (leb (end_of cur - currentTime st) PRE_SEND_MS
            && ltb 0 (end_of cur - currentTime st)); reflexivity.
Qed.

End SchedulerFacts.

(** ** Player: the scheduler on a ten-second track *)

(** C1 (the code departs from it).  Chunk 0 was sent last
    ([lastPatternTime = 0]) and playback is at 7.3 s after a seek.  The
    time-update handler sends the raw command of chunk 1 whole: all fifty
    values, from the chunk's own start at 5 s, for 5 s.  The resume slice
    for 7.3 s, which [sendPatternAtCurrentTime] sends from the same state,
    holds the values from offset 23 on and lasts 2.7 s. *)
Theorem checkPatternSync_sends_whole_chunk :
  let st := Examples.playing 0 in
  map Examples.payload (Player.sent (Player.on_timeupdate st (73 # 10)))
    = [Some ((500 # 100)%Q, map Some (skipn 50 Examples.track))]
  /\ (exists st',
        Player.sendPatternAtCurrentTime (Player.set_currentTime st (73 # 10))
          = JS.Ok st'
        /\ map Examples.payload (Player.sent st')
           = [Some ((73 # 10)%Q, map Some (skipn 73 Examples.track))])
  /\ JS.Math_floor (((73 # 10) - 5) / (1 # 10)) = 23.
Proof.
  split; [vm_compute; reflexivity|].
  split; [|reflexivity].
  eexists. split; vm_compute; reflexivity.
Qed.

(** C2 (the code departs from it).  Chunk 0 ends at 5 s and was sent
    last.  Time updates at 4.85 s, 4.86 s and 4.87 s, all within the last
    200 ms of chunk 0, produce three device calls: chunk 1, then chunk 0
    again from its start, then chunk 1 a second time. *)
Theorem checkPatternSync_presend_repeats :
  let st1 := Player.on_timeupdate (Examples.playing 0) (485 # 100) in
  let st2 := Player.on_timeupdate st1 (486 # 100) in
  let st3 := Player.on_timeupdate st2 (487 # 100) in
  map Examples.payload (Player.sent st3)
    = [Some ((500 # 100)%Q, map Some (skipn 50 Examples.track));
       Some ((0 # 100)%Q, map Some (firstn 50 Examples.track));
       Some ((500 # 100)%Q, map Some (skipn 50 Examples.track))]
  /\ Player.lastPatternTime st1 = Some (500 # 100)%Q
  /\ Player.lastPatternTime st2 = Some 0%Q
  /\ Player.lastPatternTime st3 = Some (500 # 100)%Q.
Proof.
  repeat split; vm_compute; reflexivity.
Qed.

(** C3 (the code departs from it).  From the same state, two time
    updates in a row with the same time 4.85 s make two device calls: the
    first sends chunk 1 ahead of time, the second sends chunk 0 again. *)
Theorem checkPatternSync_not_idempotent :
  let st0 := Examples.playing 0 in
  let st1 := Player.on_timeupdate st0 (485 # 100) in
  let st2 := Player.on_timeupdate st1 (485 # 100) in
  List.length (Player.new_events st0 st1) = 1%nat
  /\ List.length (Player.new_events st1 st2) = 1%nat
  /\ List.length (Player.sent st2) = 2%nat
  /\ map Examples.payload (Player.sent st2)
     = [Some ((500 # 100)%Q, map Some (skipn 50 Examples.track));
        Some ((0 # 100)%Q, map Some (firstn 50 Examples.track))].
Proof.
  repeat split; vm_compute; reflexivity.
Qed.

(** ** The scenarios of the specification *)

Module Scenarios.

(** The two chunks of the ten-second example track, and the
    half-second chunk, are what the encoder writes. *)
Example example_chunks_encoded :
  PatternGenerator.encode "v" Examples.track = [Examples.chunk0; Examples.chunk1]
  /\ exists p,
       PatternGenerator.encode "v" [3; 7; 12; 9; 4] = [p]
       /\ PatternGenerator.strength p = PatternGenerator.strength Examples.short_chunk
       /\ PatternGenerator.rule p = PatternGenerator.rule Examples.short_chunk
       /\ (PatternGenerator.timeSec p == PatternGenerator.timeSec Examples.short_chunk)%Q
       /\ PatternGenerator.points_of p = PatternGenerator.points_of Examples.short_chunk.
Proof.
  split; [vm_compute; reflexivity|].
  eexists. split; [vm_compute; reflexivity|]. repeat split.
Qed.

(** A 10-second track gives 100 intensities in two chunks of 50. *)
Example ten_seconds_two_chunks :
  exists g,
    PatternGenerator.generate Examples.steady_analysis Examples.default_settings = Some g
    /\ PatternGenerator.totalPoints g = 100%nat
    /\ PatternGenerator.patternCount g = 2%nat
    /\ map (fun p => List.length (PatternGenerator.strengths_of p))
           (PatternGenerator.patterns g) = [50; 50]%nat.
Proof. eexists. repeat split; vm_compute; reflexivity. Qed.

(** Onsets at 1.0, 1.5, 2.0 and 2.5 s give 120 BPM and a beat of 0.5 s. *)
Example half_second_onsets :
  exists t,
    AudioAnalyzer.estimateBPM [1; 15 # 10; 2; 25 # 10]%Q 3 = Some t
    /\ AudioAnalyzer.bpm t = 120
    /\ (AudioAnalyzer.beatInterval t == 1 # 2)%Q.
Proof. eexists. repeat split; vm_compute; reflexivity. Qed.

(** With the default settings a tick at volume 0.5 gets 12 in the
    on-beat zone and 2 outside it. *)
Example on_and_off_beat :
  exists g,
    PatternGenerator.generate Examples.steady_analysis Examples.default_settings = Some g
    /\ firstn 5 (List.concat (map PatternGenerator.strengths_of
                                 (PatternGenerator.patterns g)))
       = [Some 12; Some 12; Some 12; Some 12; Some 2].
Proof. eexists. split; vm_compute; reflexivity. Qed.

(** Starting playback at 0 s on the loaded track ([lastPatternTime] is
    [-1]) sends chunk 0 from its start and puts its start time on
    record: the state the scheduler works from afterwards. *)
Example playback_start :
  exists st,
    Player.sendPatternAtCurrentTime (Examples.playing (-1)) = JS.Ok st
    /\ Player.lastPatternTime st = Some 0%Q
    /\ map Examples.payload (Player.sent st)
       = [Some ((0 # 100)%Q, map Some (firstn 50 Examples.track))].
Proof. eexists. repeat split; vm_compute; reflexivity. Qed.

(** The resume slice of the first chunk of the ten-second track: at its
    start, at its end, and at its midpoint (half the values, the end
    time kept). *)
Example resume_slice_points :
  PatternGenerator.createResumePattern Examples.chunk0 0 = JS.Ok (Some Examples.chunk0)
  /\ PatternGenerator.createResumePattern Examples.chunk0 5 = JS.Ok None
  /\ exists p m,
       PatternGenerator.createResumePattern Examples.chunk0 (25 # 10) = JS.Ok (Some p)
       /\ PatternGenerator._meta p = Some m
       /\ PatternGenerator.points m = 25
       /\ PatternGenerator.strengths_of p = map Some (firstn 25 (skipn 25 Examples.track))
       /\ (PatternGenerator.endTime m == 5)%Q.
Proof.
  split; [vm_compute; reflexivity|]. split; [vm_compute; reflexivity|].
  eexists. eexists. repeat split; vm_compute; reflexivity.
Qed.

End Scenarios.

(** * Further properties of the code *)

(** ** PatternGenerator: the chunks, one by one *)

Module EncodeFacts.

Import JS Str PatternGenerator.

(** The [j]-th command pushed from [idx] on is the one built at
    [idx + 50 j]; every command before it is a full chunk. *)
Lemma encode_from_nth (featureStr : string) (allStrengths : list Z) (idx : nat) :
  forall (j : nat) (p : Pattern),
    nth_error (encode_from featureStr allStrengths idx) j = Some p ->
    p = make_pattern featureStr allStrengths (idx + 50 * j)
    /\ (idx + 50 * j < List.length allStrengths)%nat.
Proof.
  funelim (encode_from featureStr allStrengths idx); intros j p Hp.
  - destruct j as [|j]; cbn [nth_error] in Hp.
    + injection Hp as <-. rewrite Nat.mul_0_r, Nat.add_0_r. split; [reflexivity|exact l].
    + destruct (H _ _ Hp) as (-> & Hlt).
      assert (Hc : chunkSize_at allStrengths idx = 50%nat)
        by (unfold chunkSize_at in *; lia).
      rewrite Hc in *. split; [f_equal; lia|lia].
  - destruct j; discriminate Hp.
Qed.

Lemma encode_from_nth_exists (featureStr : string) (allStrengths : list Z) (idx : nat) :
  forall j : nat,
    (idx + 50 * j < List.length allStrengths)%nat ->
    nth_error (encode_from featureStr allStrengths idx) j
    = Some (make_pattern featureStr allStrengths (idx + 50 * j)).
Proof.
  funelim (encode_from featureStr allStrengths idx); intros j Hj.
  - destruct j as [|j]; cbn [nth_error].
    + rewrite Nat.mul_0_r, Nat.add_0_r. reflexivity.
    + assert (Hc : chunkSize_at allStrengths idx = 50%nat)
        by (unfold chunkSize_at in *; lia).
      rewrite Hc in *. rewrite H by lia. do 2 f_equal. lia.
  - lia.
Qed.

(** The times the encoder writes for the chunk at [idx]. *)
Lemma make_pattern_times (featureStr : string) (allStrengths : list Z) (idx : nat) :
  exists m,
    _meta (make_pattern featureStr allStrengths idx) = Some m
    /\ (startTime m == inject_Z (Z.of_nat idx) / 10)%Q
    /\ (timeSec (make_pattern featureStr allStrengths idx)
        == inject_Z (Z.of_nat (List.length (chunk_at allStrengths idx))) / 10)%Q
    /\ (endTime m
        == inject_Z (Z.of_nat (idx + List.length (chunk_at allStrengths idx))) / 10)%Q
    /\ points m = Z.of_nat (List.length (chunk_at allStrengths idx))
    /\ intervalMs m = 100
    /\ isResumeSlice m = false.
Proof.
  eexists. split; [reflexivity|].
  cbn [startTime endTime points intervalMs isResumeSlice timeSec make_pattern].
  unfold intervalSec.
  set (i := Z.of_nat idx). set (n := Z.of_nat (List.length (chunk_at allStrengths idx))).
  assert (Ei : Math_round (inject_Z i * (1 # 10) * 100) = i * 10).
  { apply GenerateFacts.Math_round_integer. rewrite inject_Z_mult.
    change (inject_Z 10) with 10%Q. lra. }
  assert (En : Math_round (inject_Z n * (1 # 10) * 1000) = n * 100).
  { apply GenerateFacts.Math_round_integer. rewrite inject_Z_mult.
    change (inject_Z 100) with 100%Q. lra. }
  rewrite Ei, En.
  assert (Et : (inject_Z (n * 100) / 1000 == inject_Z n / 10)%Q).
  { rewrite inject_Z_mult. change (inject_Z 100) with 100%Q. field. }
  assert (Ee : Math_round ((inject_Z i * (1 # 10) + inject_Z (n * 100) / 1000) * 100)
               = (i + n) * 10).
  { apply GenerateFacts.Math_round_integer. rewrite Et, inject_Z_mult, inject_Z_plus.
    change (inject_Z 10) with 10%Q. field. }
  rewrite Ee.
  repeat split; try reflexivity.
  - rewrite inject_Z_mult. change (inject_Z 10) with 10%Q. field.
  - exact Et.
  - rewrite Nat2Z.inj_add. fold i n. rewrite inject_Z_mult.
    change (inject_Z 10) with 10%Q. field.
Qed.

End EncodeFacts.

(** ** From commands to script entries: which entry covers a time *)

Module CoverageFacts.

Import JS QB PatternGenerator Player Playback.

Lemma or_default_eq (x d : Q) : (d == 0)%Q -> (or_default x d == x)%Q.
Proof.
  intros Hd. unfold or_default. destruct (eqb x 0) eqn:E; [|reflexivity].
  apply QBFacts.eqb_true in E. rewrite E, Hd. reflexivity.
Qed.

Lemma or_default_nonzero (x d : Q) : ~ (x == 0)%Q -> or_default x d = x.
Proof.
  intros Hx. unfold or_default. apply QBFacts.eqb_false in Hx. rewrite Hx. reflexivity.
Qed.

Lemma div10_le (a b : Z) : a <= b -> (inject_Z a / 10 <= inject_Z b / 10)%Q.
Proof.
  intros H. apply Qmult_le_compat_r; [rewrite <- Zle_Qle; exact H|discriminate].
Qed.

Lemma div10_lt (a b : Z) : (inject_Z a / 10 < inject_Z b / 10)%Q -> a < b.
Proof.
  intros H. apply Z.nle_gt. intros Hle. apply div10_le in Hle. lra.
Qed.

(** Start and end of the entry of an encoder chunk. *)
Lemma official_entry_span (display : string) (featureStr : string)
    (allStrengths : list Z) (idx : nat) (m : Meta) :
  (idx < List.length allStrengths)%nat ->
  _meta (make_pattern featureStr allStrengths idx) = Some m ->
  let e := official_entry display (make_pattern featureStr allStrengths idx) m in
  (start_of e == inject_Z (Z.of_nat idx) / 10)%Q
  /\ (end_of e == inject_Z (Z.of_nat (idx + chunkSize_at allStrengths idx)) / 10)%Q
  /\ time e = Some (start_of e).
Proof.
  intros Hidx Hm e.
  destruct (EncodeFacts.make_pattern_times featureStr allStrengths idx)
    as (m' & Hm' & Hs & Ht & He & Hp & Hi & Hr).
  assert (m' = m) by congruence. subst m'.
  rewrite CodecFacts.chunk_at_length in Ht, He, Hp by exact Hidx.
  pose proof (CodecFacts.chunkSize_at_bounds allStrengths idx Hidx) as [Hc _].
  unfold e, start_of, end_of, official_entry.
  cbn [time rawCommand _meta PatternGenerator.startTime PatternGenerator.endTime
       duration timeSec].
  split; [|split; [|reflexivity]].
  - rewrite or_default_eq by reflexivity. exact Hs.
  - rewrite or_default_nonzero; [exact He|].
    rewrite He. intros E.
    assert (0 < inject_Z (Z.of_nat (idx + chunkSize_at allStrengths idx)))%Q
      by (change 0%Q with (inject_Z 0); rewrite <- Zlt_Qlt; lia).
    assert (E2 : (inject_Z (Z.of_nat (idx + chunkSize_at allStrengths idx)) / 10
                  == inject_Z (Z.of_nat (idx + chunkSize_at allStrengths idx)) * (1 # 10))%Q)
      by (unfold Qdiv; apply Qmult_comp; reflexivity).
    rewrite E2 in E. lra.
Qed.

(** The encoder's commands are ["Pattern"] commands with a [strength]
    and metadata: the converter stores [official_entry] for each. *)
Lemma convert_command_make_pattern (display : Pattern -> string) (featureStr : string)
    (allStrengths : list Z) (idx : nat) :
  exists m,
    _meta (make_pattern featureStr allStrengths idx) = Some m
    /\ convert_command display (make_pattern featureStr allStrengths idx)
       = Some (official_entry (display (make_pattern featureStr allStrengths idx))
                 (make_pattern featureStr allStrengths idx) m).
Proof. eexists. split; reflexivity. Qed.

Lemma convert_cons (display : Pattern -> string) (p : Pattern) (ps : list Pattern)
    (e : PlayPattern) (es : list PlayPattern) :
  convert_command display p = Some e ->
  convertOfficialFormat display (p :: ps) = Some es ->
  exists es', es = e :: es' /\ convertOfficialFormat display ps = Some es'.
Proof.
  intros He H. cbn [convertOfficialFormat] in H. rewrite He in H.
  destruct (convertOfficialFormat display ps) as [es'|]; [|discriminate].
  injection H as <-. exists es'. split; reflexivity.
Qed.

(** The converter accepts whatever the encoder writes. *)
Lemma convert_encode_from (display : Pattern -> string) (featureStr : string)
    (allStrengths : list Z) (idx : nat) :
  exists es,
    convertOfficialFormat display (encode_from featureStr allStrengths idx) = Some es
    /\ List.length es = List.length (encode_from featureStr allStrengths idx).
Proof.
  funelim (encode_from featureStr allStrengths idx).
  - destruct (H display) as (es & Hes & Hlen).
    destruct (convert_command_make_pattern display featureStr allStrengths idx)
      as (m & Hm & Hc).
    eexists. cbn [convertOfficialFormat]. rewrite Hc, Hes. split; [reflexivity|].
    cbn [List.length]. rewrite Hlen. reflexivity.
  - exists []. split; reflexivity.
Qed.

(** Inside the part of the track that the commands from [idx] on span,
    the index loop and [find] both stop at the command whose interval
    holds the time. *)
Lemma find_current_encode_from (display : Pattern -> string) (featureStr : string)
    (allStrengths : list Z) (idx : nat) :
  forall (es : list PlayPattern) (i : nat) (t : Q),
    convertOfficialFormat display (encode_from featureStr allStrengths idx) = Some es ->
    (inject_Z (Z.of_nat idx) / 10 <= t)%Q ->
    (t < inject_Z (Z.of_nat (List.length allStrengths)) / 10)%Q ->
    exists j m,
      (idx + 50 * j < List.length allStrengths)%nat
      /\ _meta (make_pattern featureStr allStrengths (idx + 50 * j)) = Some m
      /\ nth_error es j
         = Some (official_entry
                   (display (make_pattern featureStr allStrengths (idx + 50 * j)))
                   (make_pattern featureStr allStrengths (idx + 50 * j)) m)
      /\ find_current es t i = Some (i + j)%nat
      /\ find (covers t) es = nth_error es j
      /\ (inject_Z (Z.of_nat (idx + 50 * j)) / 10 <= t)%Q
      /\ (t < inject_Z (Z.of_nat (idx + 50 * j
                                  + chunkSize_at allStrengths (idx + 50 * j))) / 10)%Q.
Proof.
  funelim (encode_from featureStr allStrengths idx); intros es i t Hes Hlo Hhi.
  - destruct (convert_command_make_pattern display featureStr allStrengths idx)
      as (m & Hm & Hc).
    destruct (convert_cons _ _ _ _ _ Hc Hes) as (es' & -> & Hes').
    destruct (official_entry_span
                (display (make_pattern featureStr allStrengths idx))
                featureStr allStrengths idx m l Hm) as (Hs & He & _).
    cbn [find_current find].
    destruct (covers t (official_entry
                          (display (make_pattern featureStr allStrengths idx))
                          (make_pattern featureStr allStrengths idx) m)) eqn:Ec.
    + exists 0%nat, m. rewrite Nat.mul_0_r, !Nat.add_0_r. cbn [nth_error].
      unfold covers in Ec. apply andb_true_iff in Ec. destruct Ec as [E1 E2].
      apply QBFacts.leb_true in E1. apply QBFacts.ltb_true in E2.
      rewrite He in E2.
      repeat split; try reflexivity; assumption.
    + assert (Hge : (inject_Z (Z.of_nat (idx + chunkSize_at allStrengths idx)) / 10 <= t)%Q).
      { unfold covers in Ec. apply andb_false_iff in Ec. destruct Ec as [Ec|Ec].
        - apply QBFacts.leb_false in Ec. rewrite Hs in Ec. lra.
        - apply QBFacts.ltb_false in Ec. rewrite He in Ec. exact Ec. }
      assert (Hc50 : chunkSize_at allStrengths idx = 50%nat).
      { pose proof (CodecFacts.chunkSize_at_bounds allStrengths idx l).
        assert (Z.of_nat (idx + chunkSize_at allStrengths idx)
                < Z.of_nat (List.length allStrengths)) by (apply div10_lt; lra).
        unfold chunkSize_at in *. lia. }
      destruct (H display es' (S i) t Hes' Hge Hhi)
        as (j & m' & Hlt & Hm' & Hn & Hf & Hfind & H1 & H2).
      rewrite Hc50 in *.
      replace (idx + 50 + 50 * j)%nat with (idx + 50 * S j)%nat in * by lia.
      exists (S j), m'. cbn [nth_error].
      repeat split; try assumption.
      rewrite Hf. f_equal. lia.
  - exfalso. assert (Z.of_nat idx < Z.of_nat (List.length allStrengths))
      by (apply div10_lt; lra). lia.
Qed.

(** Outside that part nothing covers the time. *)
Lemma find_current_encode_from_none (display : Pattern -> string) (featureStr : string)
    (allStrengths : list Z) (idx : nat) :
  forall (es : list PlayPattern) (i : nat) (t : Q),
    convertOfficialFormat display (encode_from featureStr allStrengths idx) = Some es ->
    (t < inject_Z (Z.of_nat idx) / 10
     \/ inject_Z (Z.of_nat (List.length allStrengths)) / 10 <= t)%Q ->
    find_current es t i = None /\ find (covers t) es = None.
Proof.
  funelim (encode_from featureStr allStrengths idx); intros es i t Hes Ht.
  - destruct (convert_command_make_pattern display featureStr allStrengths idx)
      as (m & Hm & Hc).
    destruct (convert_cons _ _ _ _ _ Hc Hes) as (es' & -> & Hes').
    destruct (official_entry_span
                (display (make_pattern featureStr allStrengths idx))
                featureStr allStrengths idx m l Hm) as (Hs & He & _).
    cbn [find_current find].
    pose proof (CodecFacts.chunkSize_at_bounds allStrengths idx l) as [Hc1 Hc2].
    assert (H1 : (inject_Z (Z.of_nat idx) / 10
                  <= inject_Z (Z.of_nat (idx + chunkSize_at allStrengths idx)) / 10)%Q)
      by (apply div10_le; lia).
    assert (H2 : (inject_Z (Z.of_nat (idx + chunkSize_at allStrengths idx)) / 10
                  <= inject_Z (Z.of_nat (List.length allStrengths)) / 10)%Q)
      by (apply div10_le; lia).
    assert (Ec : covers t (official_entry
                             (display (make_pattern featureStr allStrengths idx))
                             (make_pattern featureStr allStrengths idx) m) = false).
    { unfold covers. apply andb_false_iff. destruct Ht as [Ht|Ht].
      - left. apply QBFacts.leb_false. rewrite Hs. exact Ht.
      - right. apply QBFacts.ltb_false. rewrite He. lra. }
    rewrite Ec. apply (H display es' (S i) t Hes').
    destruct Ht as [Ht|Ht]; [left; lra|right; exact Ht].
  - cbn [convertOfficialFormat] in Hes. injection Hes as <-. split; reflexivity.
Qed.

End CoverageFacts.

(** ** The resume slice of a chunk with a 100 ms tick *)

Module SliceFacts.

Import JS Str QB PatternGenerator.





(** The resume slice raises only for a command with metadata and no
    [strength]. *)
Lemma createResumePattern_with_strength (p : Pattern) (q : Q) :
  strength p <> None -> createResumePattern p q <> TypeError.
Proof.
  intros Hs. unfold createResumePattern.
  destruct (_meta p) as [m|]; [|discriminate].
  destruct (leb (q - startTime m) 0); [discriminate|].
  destruct (intervalMs m =? 0); [discriminate|].
  match goal with |- context [points m <=? ?k] => destruct (points m <=? k) end;
    [discriminate|].
  destruct (strength p) as [s|]; [|congruence].
  match goal with |- context [(?n =? 0)%nat] => destruct (n =? 0)%nat end; discriminate.
Qed.

End SliceFacts.

(** ** The layout of the encoded chunks *)

Module ListFacts.

Lemma firstn_beyond {A : Type} (a b : nat) (l : list A) :
  (List.length l <= a)%nat -> (List.length l <= b)%nat -> firstn a l = firstn b l.
Proof. intros Ha Hb. rewrite !firstn_all2 by assumption. reflexivity. Qed.

Lemma firstn_min_50 {A : Type} (l : list A) :
  firstn (Nat.min 50 (List.length l)) l = firstn 50 l.
Proof.
  destruct (Nat.le_gt_cases 50 (List.length l)) as [H|H].
  - rewrite Nat.min_l by exact H. reflexivity.
  - rewrite Nat.min_r by lia. apply firstn_beyond; lia.
Qed.

Lemma skipn_app_length {A : Type} (l l' : list A) :
  skipn (List.length l) (l ++ l') = l'.
Proof. induction l as [|x l IH]; [reflexivity|exact IH]. Qed.

End ListFacts.

(** X1.  Where the encoder puts what: for every [k] with [50 k] below
    the number of intensities, the [k]-th command written by the chunk
    loop of [generate] holds the intensities [50 k .. 50 k + 50) (fewer
    in the last chunk), starts at [5 k] seconds, lasts a tenth of a
    second per value, ends where its values end, and carries the 100 ms
    tick and no resume mark. *)
Theorem encode_chunk_layout (featureStr : string) (allStrengths : list Z) (k : nat) :
  (50 * k < List.length allStrengths)%nat ->
  exists p m,
    nth_error (PatternGenerator.encode featureStr allStrengths) k = Some p
    /\ PatternGenerator._meta p = Some m
    /\ PatternGenerator.strengths_of p
       = map Some (firstn 50 (skipn (50 * k) allStrengths))
    /\ PatternGenerator.points m
       = Z.of_nat (Nat.min 50 (List.length allStrengths - 50 * k))
    /\ (PatternGenerator.startTime m == inject_Z (Z.of_nat (5 * k)))%Q
    /\ (PatternGenerator.timeSec p == inject_Z (PatternGenerator.points m) / 10)%Q
    /\ (PatternGenerator.endTime m
        == PatternGenerator.startTime m + PatternGenerator.timeSec p)%Q
    /\ PatternGenerator.intervalMs m = 100
    /\ PatternGenerator.isResumeSlice m = false.
Proof.
  intros Hk.
  pose proof (EncodeFacts.encode_from_nth_exists featureStr allStrengths 0 k) as Hn.
  cbn [Nat.add] in Hn. specialize (Hn Hk).
  destruct (EncodeFacts.make_pattern_times featureStr allStrengths (50 * k))
    as (m & Hm & Hs & Ht & He & Hp & Hi & Hr).
  exists (PatternGenerator.make_pattern featureStr allStrengths (50 * k)), m.
  rewrite CodecFacts.chunk_at_length in Ht, He, Hp by exact Hk.
  assert (Hc : PatternGenerator.chunkSize_at allStrengths (50 * k)
               = Nat.min 50 (List.length allStrengths - 50 * k)) by reflexivity.
  split; [exact Hn|]. split; [exact Hm|].
  split.
  { rewrite CodecFacts.strengths_of_make_pattern by exact Hk.
    rewrite CodecFacts.chunk_at_eq, Hc, <- length_skipn.
    rewrite ListFacts.firstn_min_50. reflexivity. }
  split; [rewrite Hp, Hc; reflexivity|].
  split.
  { rewrite Hs. replace (Z.of_nat (50 * k)) with (Z.of_nat (5 * k) * 10) by lia.
    rewrite inject_Z_mult. change (inject_Z 10) with 10%Q. field. }
  split; [rewrite Ht, Hp; reflexivity|].
  split; [|split; assumption].
  rewrite He, Hs, Ht, Nat2Z.inj_add, inject_Z_plus. field.
Qed.

Lemma encode_chunk_layout_witness :
  exists p m,
    nth_error (PatternGenerator.encode "v" Examples.track) 1 = Some p
    /\ PatternGenerator._meta p = Some m
    /\ PatternGenerator.strengths_of p
       = map Some (firstn 50 (skipn (50 * 1) Examples.track))
    /\ PatternGenerator.points m
       = Z.of_nat (Nat.min 50 (List.length Examples.track - 50 * 1))
    /\ (PatternGenerator.startTime m == inject_Z (Z.of_nat (5 * 1)))%Q
    /\ (PatternGenerator.timeSec p == inject_Z (PatternGenerator.points m) / 10)%Q
    /\ (PatternGenerator.endTime m
        == PatternGenerator.startTime m + PatternGenerator.timeSec p)%Q
    /\ PatternGenerator.intervalMs m = 100
    /\ PatternGenerator.isResumeSlice m = false.
Proof.
  apply (encode_chunk_layout "v" Examples.track 1). vm_compute. lia.
Defined.

(** ** The timeline of a generated script *)

Module TimelineFacts.

Import JS QB PatternGenerator Player Playback.

(** The entries the converter makes of the encoder's commands, one by
    one. *)
Lemma convert_encode_from_nth (display : Pattern -> string) (featureStr : string)
    (allStrengths : list Z) (idx : nat) :
  forall (es : list PlayPattern) (j : nat) (e : PlayPattern),
    convertOfficialFormat display (encode_from featureStr allStrengths idx) = Some es ->
    nth_error es j = Some e ->
    (idx + 50 * j < List.length allStrengths)%nat
    /\ exists m,
         _meta (make_pattern featureStr allStrengths (idx + 50 * j)) = Some m
         /\ e = official_entry
                  (display (make_pattern featureStr allStrengths (idx + 50 * j)))
                  (make_pattern featureStr allStrengths (idx + 50 * j)) m.
Proof.
  funelim (encode_from featureStr allStrengths idx); intros es j e Hes Hj.
  - destruct (CoverageFacts.convert_command_make_pattern display featureStr
                allStrengths idx) as (m & Hm & Hc).
    destruct (CoverageFacts.convert_cons _ _ _ _ _ Hc Hes) as (es' & -> & Hes').
    destruct j as [|j]; cbn [nth_error] in Hj.
    + injection Hj as <-. rewrite Nat.mul_0_r, Nat.add_0_r.
      split; [exact l|]. exists m. split; [exact Hm|reflexivity].
    + destruct (H display es' j e Hes' Hj) as (Hlt & m' & Hm' & He).
      assert (Hc50 : chunkSize_at allStrengths idx = 50%nat)
        by (unfold chunkSize_at in *; lia).
      rewrite Hc50 in *.
      replace (idx + 50 + 50 * j)%nat with (idx + 50 * S j)%nat in * by lia.
      split; [exact Hlt|]. exists m'. split; assumption.
  - cbn [convertOfficialFormat] in Hes. injection Hes as <-.
    destruct j; discriminate Hj.
Qed.

(** A time inside the [j]-th five-second slot. *)
Lemma slot_of_time (t : Q) (j c : nat) :
  (c <= 50)%nat ->
  (inject_Z (Z.of_nat (50 * j)) / 10 <= t)%Q ->
  (t < inject_Z (Z.of_nat (50 * j + c)) / 10)%Q ->
  Z.to_nat (Qfloor (t / 5)) = j
  /\ Z.of_nat (50 * j) <= Qfloor (t * 10) < Z.of_nat (50 * j + c).
Proof.
  intros Hc Hlo Hhi.
  assert (D1 : (inject_Z (Z.of_nat (50 * j)) / 10
                == inject_Z (Z.of_nat (50 * j)) * (1 # 10))%Q)
    by (unfold Qdiv; apply Qmult_comp; reflexivity).
  assert (D2 : (inject_Z (Z.of_nat (50 * j + c)) / 10
                == inject_Z (Z.of_nat (50 * j + c)) * (1 # 10))%Q)
    by (unfold Qdiv; apply Qmult_comp; reflexivity).
  rewrite D1 in Hlo. rewrite D2 in Hhi. clear D1 D2.
  assert (E1 : (inject_Z (Z.of_nat (50 * j)) == inject_Z (Z.of_nat j) * 50)%Q).
  { rewrite Nat2Z.inj_mul, inject_Z_mult. change (inject_Z (Z.of_nat 50)) with 50%Q. ring. }
  assert (E2 : (inject_Z (Z.of_nat (50 * j + c)) <= (inject_Z (Z.of_nat j) + 1) * 50)%Q).
  { replace ((inject_Z (Z.of_nat j) + 1) * 50)%Q
      with ((inject_Z (Z.of_nat j) + inject_Z 1) * inject_Z 50)%Q by reflexivity.
    rewrite <- inject_Z_plus, <- inject_Z_mult, <- Zle_Qle. lia. }
  split.
  - assert (E : Qfloor (t / 5) = Z.of_nat j).
    { apply GenerateFacts.Qfloor_unique.
      - apply Qle_shift_div_l; [reflexivity|]. lra.
      - rewrite inject_Z_plus. change (inject_Z 1) with 1%Q.
        apply Qlt_shift_div_r; [reflexivity|]. lra. }
    rewrite E. apply Nat2Z.id.
  - split.
    + rewrite <- (Qfloor_Z (Z.of_nat (50 * j))). apply Qfloor_resp_le. lra.
    + rewrite Zlt_Qlt. eapply Qle_lt_trans; [apply Qfloor_le|]. lra.
Qed.

(** The state [scripted_patterns] describes. *)
Lemma scripted_patterns_inv (st : State) (es : list PlayPattern) :
  scripted_patterns st = Some es ->
  exists item sc,
    getCurrentItem st = Some item
    /\ script item = Some sc
    /\ negb (String.eqb (type sc) "scripted") || negb (loaded sc) = false
    /\ patterns sc = es.
Proof.
  unfold scripted_patterns. intros H.
  destruct (getCurrentItem st) as [item|]; [|discriminate].
  destruct (script item) as [sc|] eqn:Es; [|discriminate].
  destruct (negb (String.eqb (type sc) "scripted") || negb (loaded sc)) eqn:Eg;
    [discriminate|].
  injection H as <-. exists item, sc. repeat split; assumption.
Qed.

End TimelineFacts.

(** X2.  The script of a generated track, as the player finds its way in
    it: the converter accepts the encoder's commands and keeps one entry
    per command; entry [k] spans the seconds from [5 k] to [5 k + 5] (to
    the end of the track for the last one); and at a time [t] the index
    loop of [checkPatternSync] and the [find] of
    [sendPatternAtCurrentTime] both land on entry [floor(t / 5)] when
    [0 <= t < length / 10], and on nothing outside the track. *)
Theorem find_current_on_generated_track (display : PatternGenerator.Pattern -> string)
    (featureStr : string) (allStrengths : list Z) (t : Q) :
  let inside :=
    QB.leb 0 t && QB.ltb t (inject_Z (Z.of_nat (List.length allStrengths)) / 10) in
  let k := Z.to_nat (Qfloor (t / 5)) in
  exists es,
    Playback.convertOfficialFormat display (PatternGenerator.encode featureStr allStrengths)
      = Some es
    /\ List.length es = List.length (PatternGenerator.encode featureStr allStrengths)
    /\ (forall j e, nth_error es j = Some e ->
          (Player.start_of e == inject_Z (Z.of_nat (5 * j)))%Q
          /\ (Player.end_of e
              == inject_Z (Z.of_nat (Nat.min (50 * j + 50) (List.length allStrengths)))
                 / 10)%Q)
    /\ Player.find_current es t 0 = (if inside then Some k else None)
    /\ find (Player.covers t) es = (if inside then nth_error es k else None).
Proof.
  intros inside k.
  destruct (CoverageFacts.convert_encode_from display featureStr allStrengths 0)
    as (es & Hes & Hlen).
  exists es. unfold PatternGenerator.encode.
  split; [exact Hes|]. split; [exact Hlen|]. split.
  { intros j e Hj.
    destruct (TimelineFacts.convert_encode_from_nth display featureStr allStrengths 0
                es j e Hes Hj) as (Hlt & m & Hm & ->).
    cbn [Nat.add] in *.
    destruct (CoverageFacts.official_entry_span
                (display (PatternGenerator.make_pattern featureStr allStrengths (50 * j)))
                featureStr allStrengths (50 * j) m Hlt Hm) as (Hs & He & _).
    split.
    - rewrite Hs. replace (Z.of_nat (50 * j)) with (Z.of_nat (5 * j) * 10) by lia.
      rewrite inject_Z_mult. change (inject_Z 10) with 10%Q. field.
    - rewrite He. unfold PatternGenerator.chunkSize_at.
      replace (50 * j + Nat.min 50 (List.length allStrengths - 50 * j))%nat
        with (Nat.min (50 * j + 50) (List.length allStrengths)) by lia.
      reflexivity. }
  unfold inside.
  destruct (QB.leb 0 t) eqn:E0; cbn [andb].
  - apply QBFacts.leb_true in E0.
    destruct (QB.ltb t (inject_Z (Z.of_nat (List.length allStrengths)) / 10)) eqn:E1.
    + apply QBFacts.ltb_true in E1.
      destruct (CoverageFacts.find_current_encode_from display featureStr allStrengths 0
                  es 0%nat t Hes) as (j & m & Hlt & Hm & Hn & Hf & Hfind & H1 & H2).
      { assert (E : (inject_Z (Z.of_nat 0) / 10 == 0)%Q) by reflexivity.
        rewrite E. exact E0. }
      { exact E1. }
      cbn [Nat.add] in *.
      pose proof (CodecFacts.chunkSize_at_bounds allStrengths (50 * j) Hlt) as [Hc _].
      destruct (TimelineFacts.slot_of_time t j
                  (PatternGenerator.chunkSize_at allStrengths (50 * j))
                  ltac:(lia) H1 H2) as [Hk _].
      unfold k. rewrite Hk. split; [exact Hf|exact Hfind].
    + apply QBFacts.ltb_false in E1.
      apply (CoverageFacts.find_current_encode_from_none display featureStr
               allStrengths 0 es 0%nat t Hes).
      right. exact E1.
  - apply QBFacts.leb_false in E0.
    apply (CoverageFacts.find_current_encode_from_none display featureStr
             allStrengths 0 es 0%nat t Hes).
    left. assert (E : (inject_Z (Z.of_nat 0) / 10 == 0)%Q) by reflexivity.
    rewrite E. exact E0.
Qed.

(** ** Player: the resume path *)

Module ResumePathFacts.

Import JS QB PatternGenerator Player Playback.

(** [find] with the covering test returns the entry the index loop
    stops at. *)
Lemma find_covers_find_current (es : list PlayPattern) (t : Q) :
  forall i,
    match find_current es t i with
    | Some k => exists j, k = (i + j)%nat /\ find (covers t) es = nth_error es j
                          /\ nth_error es j <> None
    | None => find (covers t) es = None
    end.
Proof.
  induction es as [|e es IH]; intros i; cbn [find_current find]; [reflexivity|].
  destruct (covers t e) eqn:E.
  - exists 0%nat. rewrite Nat.add_0_r. repeat split. discriminate.
  - specialize (IH (S i)). destruct (find_current es t (S i)) as [k|]; [|exact IH].
    destruct IH as (j & -> & Hf & Hn). exists (S j). split; [lia|]. split; assumption.
Qed.

(** What [find] returns passes the test. *)
Lemma find_covers (es : list PlayPattern) (t : Q) (e : PlayPattern) :
  find (covers t) es = Some e -> covers t e = true /\ In e es.
Proof. intros H. apply find_some in H. destruct H; split; assumption. Qed.

(** The resume path, step by step: it returns the state as it is, or
    sends the slice of the covering entry. *)
Lemma sendPatternAtCurrentTime_cases (st : State) :
  sendPatternAtCurrentTime st = Ok st
  \/ exists item sc e rc sliced dev,
       getCurrentItem st = Some item
       /\ script item = Some sc
       /\ find (covers (currentTime st)) (patterns sc) = Some e
       /\ rawCommand e = Some rc
       /\ createResumePattern rc (currentTime st) = Ok (Some sliced)
       /\ connected_device (api st) = Some dev
       /\ sendPatternAtCurrentTime st
          = Ok (set_lastPatternTime
                  (set_activePattern st
                     (Some {| entry := e; shown := pattern e; sliced := true |})
                     [SendPattern dev (pattern e) (timeSec sliced) (Some sliced)])
                  (time e)).
Proof.
  unfold sendPatternAtCurrentTime.
  destruct (getCurrentItem st) as [item|] eqn:Ei; [|left; reflexivity].
  destruct (script item) as [sc|] eqn:Es; [|left; reflexivity].
  destruct (find (covers (currentTime st)) (patterns sc)) as [e|] eqn:Ef;
    [|left; reflexivity].
  destruct (rawCommand e) as [rc|] eqn:Er; [|left; reflexivity].
  destruct (_meta rc) as [m|] eqn:Em; [|left; reflexivity].
  destruct (strength rc) as [s|] eqn:Est; [|left; reflexivity].
  destruct (String.eqb s "") eqn:Ee; [left; reflexivity|].
  destruct (createResumePattern rc (currentTime st)) as [[sl|]|] eqn:Ec.
  - destruct (connected_device (api st)) as [dev|] eqn:Ed; [|left; reflexivity].
    right. exists item, sc, e, rc, sl, dev. repeat split; try assumption; reflexivity.
  - left. reflexivity.
  - exfalso. apply (SliceFacts.createResumePattern_with_strength rc (currentTime st));
      [rewrite Est; discriminate|exact Ec].
Qed.


Lemma new_events_none (st : State) : new_events st st = [].
Proof. unfold new_events. apply skipn_all. Qed.

End ResumePathFacts.


(** ** Player: resuming inside a generated track *)

Module ResumeTrackFacts.

Import JS QB PatternGenerator Player Playback.



End ResumeTrackFacts.



(** ** Player: the time update that follows a resume *)

Module SyncFacts.

Import JS QB PatternGenerator Player Playback.

(** [scripted_patterns] reads the queue only. *)
Lemma scripted_patterns_frame (st st' : State) :
  queue st' = queue st -> currentQueueIndex st' = currentQueueIndex st ->
  scripted_patterns st' = scripted_patterns st.
Proof.
  intros Hq Hi. unfold scripted_patterns, getCurrentItem. rewrite Hq, Hi. reflexivity.
Qed.

(** The handler, step by step, on a loaded script while playing, at a
    time some entry covers. *)
Lemma checkPatternSync_unfold (st : State) (es : list PlayPattern) (i : nat)
    (cur : PlayPattern) :
  scripted_patterns st = Some es ->
  isPlaying st = true ->
  find_current es (currentTime st) 0 = Some i ->
  nth_error es i = Some cur ->
  let normal :=
    if far_from (lastPatternTime st) (start_of cur)
    then sendPattern (set_lastPatternTime st (Some (start_of cur))) cur
    else st in
  checkPatternSync st
  = if leb (end_of cur - currentTime st) PRE_SEND_MS && ltb 0 (end_of cur - currentTime st)
    then match nth_error es (i + 1) with
         | Some next =>
             if differs (lastPatternTime st) (start_of next)
             then sendPattern (set_lastPatternTime st (Some (start_of next))) next
             else normal
         | None => normal
         end
    else normal.
Proof.
  intros Hsp Hpl Hf Hn normal.
  destruct (TimelineFacts.scripted_patterns_inv st es Hsp) as (item & sc & Ei & Es & Eg & Hp).
  unfold checkPatternSync. rewrite Ei, Es, Eg, Hpl. cbn [negb]. cbv zeta.
  rewrite Hp, Hf, Hn. reflexivity.
Qed.

(** Nothing happens when the handler is not playing or no entry covers
    the time. *)
Lemma checkPatternSync_idle (st : State) :
  isPlaying st = false
  \/ scripted_patterns st = None
  \/ (exists es, scripted_patterns st = Some es
                 /\ find_current es (currentTime st) 0 = None) ->
  checkPatternSync st = st.
Proof.
  unfold checkPatternSync, scripted_patterns.
  destruct (getCurrentItem st) as [item|]; [|reflexivity].
  destruct (script item) as [sc|]; [|reflexivity].
  destruct (negb (String.eqb (type sc) "scripted") || negb (loaded sc)); [reflexivity|].
  intros [H|[H|(es & H & Hf)]].
  - rewrite H. reflexivity.
  - discriminate H.
  - injection H as <-. destruct (negb (isPlaying st)); [reflexivity|].
    cbv zeta. rewrite Hf. reflexivity.
Qed.

(** The index the loop returns is an index of the list. *)
Lemma find_current_nth (es : list PlayPattern) (t : Q) (k : nat) :
  find_current es t 0 = Some k ->
  exists e, nth_error es k = Some e /\ covers t e = true
            /\ find (covers t) es = Some e.
Proof.
  intros H. pose proof (ResumePathFacts.find_covers_find_current es t 0) as Hc.
  rewrite H in Hc. destruct Hc as (j & Hk & Hf & Hn). cbn [Nat.add] in Hk. subst j.
  destruct (nth_error es k) as [e|] eqn:E; [|congruence].
  exists e. split; [reflexivity|]. split; [|exact Hf].
  apply (ResumePathFacts.find_covers es t e Hf).
Qed.

(** The pre-send test in terms of the covering entry. *)
Lemma presend_due_unfold (st : State) (es : list PlayPattern) (i : nat)
    (cur : PlayPattern) :
  scripted_patterns st = Some es ->
  find_current es (currentTime st) 0 = Some i ->
  nth_error es i = Some cur ->
  presend_due st
  = leb (end_of cur - currentTime st) PRE_SEND_MS && ltb 0 (end_of cur - currentTime st)
    && match nth_error es (i + 1) with Some _ => true | None => false end.
Proof.
  intros Hsp Hf Hn.
  destruct (TimelineFacts.scripted_patterns_inv st es Hsp) as (item & sc & Ei & Es & Eg & Hp).
  unfold presend_due. rewrite Ei, Es, Hp, Hf, Hn. reflexivity.
Qed.

(** With nothing to send ahead and the covering entry's start on record
    (or no number on record), the handler does nothing. *)
Lemma checkPatternSync_quiet (st : State) (es : list PlayPattern) (i : nat)
    (cur : PlayPattern) :
  scripted_patterns st = Some es ->
  find_current es (currentTime st) 0 = Some i ->
  nth_error es i = Some cur ->
  presend_due st = false ->
  far_from (lastPatternTime st) (start_of cur) = false ->
  checkPatternSync st = st.
Proof.
  intros Hsp Hf Hn Hpre Hfar.
  destruct (isPlaying st) eqn:Hpl; [|apply checkPatternSync_idle; left; exact Hpl].
  rewrite (checkPatternSync_unfold st es i cur Hsp Hpl Hf Hn). cbv zeta.
  rewrite (presend_due_unfold st es i cur Hsp Hf Hn) in Hpre.
  rewrite Hfar.
  destruct (leb (end_of cur - currentTime st) PRE_SEND_MS
            && ltb 0 (end_of cur - currentTime st)); [|reflexivity].
  destruct (nth_error es (i + 1)); [discriminate Hpre|reflexivity].
Qed.

(** An entry's own [time] is never far from its start. *)
Lemma far_from_time (e : PlayPattern) : far_from (time e) (start_of e) = false.
Proof.
  unfold start_of. destruct (time e) as [x|]; [|reflexivity].
  apply SchedulerFacts.far_from_self.
Qed.

End SyncFacts.

(** X5.  The slice sent on resume is not overwritten by the next time
    update.  When [sendPatternAtCurrentTime] has made its device call,
    it has put the covering entry's [time] on record; a time update
    that is still inside the same entry, and not in the stretch where
    the next entry is sent ahead, then makes no device call and changes
    nothing but the clock. *)
Theorem timeupdate_after_resume_is_quiet (st st' : Player.State)
    (es : list Player.PlayPattern) (t' : Q) :
  Playback.scripted_patterns st = Some es ->
  Player.sendPatternAtCurrentTime st = JS.Ok st' ->
  Player.new_events st st' <> [] ->
  Player.find_current es t' 0 = Player.find_current es (Player.currentTime st) 0 ->
  Player.presend_due (Player.set_currentTime st' t') = false ->
  Player.on_timeupdate st' t' = Player.set_currentTime st' t'.
Proof.
  intros Hsp Hsend Hev Hsame Hpre.
  destruct (ResumePathFacts.sendPatternAtCurrentTime_cases st)
    as [E|(item & sc & e & rc & sl & dev & Ei & Es & Ef & Er & Ec & Ed & E)].
  { rewrite E in Hsend. injection Hsend as <-.
    exfalso. apply Hev, ResumePathFacts.new_events_none. }
  rewrite E in Hsend. injection Hsend as <-.
  destruct (TimelineFacts.scripted_patterns_inv st es Hsp)
    as (item' & sc' & Ei' & Es' & _ & Hp).
  assert (item' = item) by congruence. subst item'.
  assert (sc' = sc) by congruence. subst sc'. rewrite Hp in Ef.
  pose proof (ResumePathFacts.find_covers_find_current es (Player.currentTime st) 0) as Hc.
  destruct (Player.find_current es (Player.currentTime st) 0) as [k|] eqn:Ek;
    [|congruence].
  destruct Hc as (j & Hk & Hf & _). cbn [Nat.add] in Hk. subst j.
  rewrite Ef in Hf. symmetry in Hf.
  unfold Player.on_timeupdate.
  apply (SyncFacts.checkPatternSync_quiet _ es k e).
  - rewrite <- Hsp. apply SyncFacts.scripted_patterns_frame; reflexivity.
  - exact Hsame.
  - exact Hf.
  - exact Hpre.
  - apply SyncFacts.far_from_time.
Qed.

(** After that resume, the time update at 7.4 s sends nothing. *)
Lemma timeupdate_after_resume_is_quiet_witness :
  Player.sendPatternAtCurrentTime Sessions.seeked = JS.Ok Sessions.resumed
  /\ List.length (Player.new_events Sessions.seeked Sessions.resumed) = 1%nat
  /\ Player.on_timeupdate Sessions.resumed (74 # 10)
     = Player.set_currentTime Sessions.resumed (74 # 10).
Proof.
  split; [vm_compute; reflexivity|]. split; [vm_compute; reflexivity|].
  apply (timeupdate_after_resume_is_quiet Sessions.seeked Sessions.resumed
           (Player.patterns Examples.track_script) (74 # 10)).
  - vm_compute. reflexivity.
  - vm_compute. reflexivity.
  - vm_compute. discriminate.
  - vm_compute. reflexivity.
  - vm_compute. reflexivity.
Defined.

(** ** Player: what one time update can do *)

Module SendFacts.

Import JS QB PatternGenerator Player Playback.

(** The handler does nothing, or sends the covering entry or the one
    after it and records the start of what it sent. *)
Lemma checkPatternSync_cases (st : State) :
  checkPatternSync st = st
  \/ exists es i cur p,
       scripted_patterns st = Some es
       /\ isPlaying st = true
       /\ find_current es (currentTime st) 0 = Some i
       /\ nth_error es i = Some cur
       /\ (p = cur \/ nth_error es (i + 1) = Some p)
       /\ checkPatternSync st = sendPattern (set_lastPatternTime st (Some (start_of p))) p.
Proof.
  destruct (isPlaying st) eqn:Hpl;
    [|left; apply SyncFacts.checkPatternSync_idle; left; exact Hpl].
  destruct (scripted_patterns st) as [es|] eqn:Hsp;
    [|left; apply SyncFacts.checkPatternSync_idle; right; left; exact Hsp].
  destruct (find_current es (currentTime st) 0) as [i|] eqn:Hf;
    [|left; apply SyncFacts.checkPatternSync_idle; right; right; exists es;
      split; assumption].
  destruct (SyncFacts.find_current_nth es _ i Hf) as (cur & Hn & _).
  pose proof (SyncFacts.checkPatternSync_unfold st es i cur Hsp Hpl Hf Hn) as E.
  cbv zeta in E.
  assert (Hsend : forall p, (p = cur \/ nth_error es (i + 1) = Some p) ->
            checkPatternSync st
            = sendPattern (set_lastPatternTime st (Some (start_of p))) p ->
            checkPatternSync st = st
            \/ exists es0 i0 cur0 p0,
                 Some es = Some es0 /\ true = true
                 /\ find_current es0 (currentTime st) 0 = Some i0
                 /\ nth_error es0 i0 = Some cur0
                 /\ (p0 = cur0 \/ nth_error es0 (i0 + 1) = Some p0)
                 /\ checkPatternSync st
                    = sendPattern (set_lastPatternTime st (Some (start_of p0))) p0).
  { intros p Hp Hx. right. exists es, i, cur, p. repeat split; assumption. }
  destruct (leb (end_of cur - currentTime st) PRE_SEND_MS
            && ltb 0 (end_of cur - currentTime st)).
  - destruct (nth_error es (i + 1)) as [next|] eqn:En.
    + destruct (differs (lastPatternTime st) (start_of next)).
      * apply (Hsend next); [right; reflexivity|exact E].
      * destruct (far_from (lastPatternTime st) (start_of cur)).
        -- apply (Hsend cur); [left; reflexivity|exact E].
        -- left. exact E.
    + destruct (far_from (lastPatternTime st) (start_of cur)).
      * apply (Hsend cur); [left; reflexivity|exact E].
      * left. exact E.
  - destruct (far_from (lastPatternTime st) (start_of cur)).
    + apply (Hsend cur); [left; reflexivity|exact E].
    + left. exact E.
Qed.

(** What [sendPattern] adds to the log for an entry without a
    [patternName]. *)
Lemma sendPattern_events (st : State) (p : PlayPattern) :
  patternName p = None ->
  new_events st (sendPattern st p)
  = match connected_device (api st) with
    | Some dev => [SendPattern dev (pattern p) (duration_or (duration p) (rawCommand p))
                     (rawCommand p)]
    | None => []
    end.
Proof.
  intros Hn. unfold new_events, sendPattern. rewrite Hn.
  destruct (rawCommand p); cbn [set_activePattern sent];
    apply ListFacts.skipn_app_length.
Qed.

(** [sendPattern] makes at most one device call, never a stop. *)
Lemma sendPattern_one_event (st : State) (p : PlayPattern) :
  new_events st (sendPattern st p) = []
  \/ exists dev shown d raw,
       connected_device (api st) = Some dev
       /\ new_events st (sendPattern st p) = [SendPattern dev shown d raw].
Proof.
  unfold new_events, sendPattern.
  destruct (connected_device (api st)) as [dev|] eqn:Ed.
  - right.
    destruct (patternName p) as [name|]; [destruct (String.eqb name "")|];
      destruct (rawCommand p); cbn [set_activePattern sent];
      rewrite ListFacts.skipn_app_length; do 4 eexists; split; reflexivity.
  - left.
    destruct (patternName p) as [name|]; [destruct (String.eqb name "")|];
      destruct (rawCommand p); cbn [set_activePattern sent];
      apply ListFacts.skipn_app_length.
Qed.

End SendFacts.

(** X6.  One time update, at most one device call, and never a slice.
    Whatever the state, [checkPatternSync] either changes nothing, or
    it is playing a loaded script and sends one entry of it: the entry
    that covers the current time or the one after it.  It then records
    that entry's start as [lastPatternTime], keeps the queue, the clock
    and the play flag, and, when the entry has no [patternName], hands
    the device the entry's stored raw command as it is, with the
    entry's duration; without a connected device no call is made. *)
Theorem checkPatternSync_one_send (st : Player.State) :
  let st' := Player.checkPatternSync st in
  st' = st
  \/ exists es i p,
       Playback.scripted_patterns st = Some es
       /\ Player.isPlaying st = true
       /\ Player.find_current es (Player.currentTime st) 0 = Some i
       /\ (nth_error es i = Some p \/ nth_error es (i + 1) = Some p)
       /\ Player.lastPatternTime st' = Some (Player.start_of p)
       /\ Player.queue st' = Player.queue st
       /\ Player.currentQueueIndex st' = Player.currentQueueIndex st
       /\ Player.currentTime st' = Player.currentTime st
       /\ Player.isPlaying st' = Player.isPlaying st
       /\ (List.length (Player.new_events st st') <= 1)%nat
       /\ (forall dev, In (Player.StopDevice dev) (Player.new_events st st') -> False)
       /\ (Player.connected_device (Player.api st) = None ->
           Player.new_events st st' = [])
       /\ (forall dev,
             Player.connected_device (Player.api st) = Some dev ->
             Player.patternName p = None ->
             Player.new_events st st'
             = [Player.SendPattern dev (Player.pattern p)
                  (Player.duration_or (Player.duration p) (Player.rawCommand p))
                  (Player.rawCommand p)]).
Proof.
  intros st'. unfold st'.
  destruct (SendFacts.checkPatternSync_cases st)
    as [E|(es & i & cur & p & Hsp & Hpl & Hf & Hn & Hp & E)]; [left; exact E|].
  right. exists es, i, p. rewrite E.
  set (st1 := Player.set_lastPatternTime st (Some (Player.start_of p))).
  destruct (SchedulerFacts.sendPattern_frame st1 p) as (Hq & Hi & Ht & Hpl' & Hl).
  assert (Hev : Player.new_events st (Player.sendPattern st1 p)
                = Player.new_events st1 (Player.sendPattern st1 p)) by reflexivity.
  split; [exact Hsp|]. split; [exact Hpl|]. split; [exact Hf|].
  split; [destruct Hp as [->|Hp]; [left; exact Hn|right; exact Hp]|].
  split; [rewrite Hl; reflexivity|].
  split; [rewrite Hq; reflexivity|].
  split; [rewrite Hi; reflexivity|].
  split; [rewrite Ht; reflexivity|].
  split; [rewrite Hpl'; reflexivity|].
  rewrite Hev.
  split.
  { destruct (SendFacts.sendPattern_one_event st1 p)
      as [E0|(dev & shown & d & raw & _ & E1)];
      [rewrite E0|rewrite E1]; cbn [List.length]; lia. }
  split.
  { intros dev Hin.
    destruct (SendFacts.sendPattern_one_event st1 p)
      as [E0|(dev' & shown & d & raw & _ & E1)].
    - rewrite E0 in Hin. exact Hin.
    - rewrite E1 in Hin. destruct Hin as [Hin|[]]. discriminate Hin. }
  split.
  { intros Hd.
    destruct (SendFacts.sendPattern_one_event st1 p)
      as [E0|(dev' & shown & d & raw & Hd' & _)]; [exact E0|].
    change (Player.api st1) with (Player.api st) in Hd'. congruence. }
  intros dev Hd Hname.
  rewrite (SendFacts.sendPattern_events st1 p Hname).
  change (Player.api st1) with (Player.api st). rewrite Hd. reflexivity.
Qed.



(** X8.  Outside the stretch where the next entry is sent ahead, a
    second time update with the same time does nothing: it makes no
    device call and leaves the state as the first left it. *)
Theorem timeupdate_twice_outside_presend (st : Player.State) (t : Q) :
  Player.presend_due (Player.set_currentTime st t) = false ->
  Player.on_timeupdate (Player.on_timeupdate st t) t = Player.on_timeupdate st t.
Proof.
  intros H. unfold Player.on_timeupdate.
  set (st0 := Player.set_currentTime st t) in *.
  assert (E : Player.set_currentTime (Player.checkPatternSync st0) t
              = Player.checkPatternSync st0).
  { destruct (SendFacts.checkPatternSync_cases st0)
      as [E|(es & i & cur & p & _ & _ & _ & _ & _ & E)]; rewrite E.
    - reflexivity.
    - destruct (SchedulerFacts.sendPattern_frame
                  (Player.set_lastPatternTime st0 (Some (Player.start_of p))) p)
        as (_ & _ & Ht & _).
      cbn in Ht.
      destruct (Player.sendPattern
                  (Player.set_lastPatternTime st0 (Some (Player.start_of p))) p)
        as [a b c d e f g h].
      cbn in Ht. subst b. reflexivity. }
  rewrite E. apply SchedulerFacts.checkPatternSync_idempotent_outside_window. exact H.
Qed.

(** Two time updates at 7.3 s on the ten-second track. *)
Lemma timeupdate_twice_outside_presend_witness :
  Player.presend_due (Player.set_currentTime (Examples.playing 0) (73 # 10)) = false
  /\ Player.on_timeupdate (Player.on_timeupdate (Examples.playing 0) (73 # 10)) (73 # 10)
     = Player.on_timeupdate (Examples.playing 0) (73 # 10).
Proof.
  split; [vm_compute; reflexivity|].
  apply (timeupdate_twice_outside_presend (Examples.playing 0) (73 # 10)).
  vm_compute. reflexivity.
Defined.

(** ** From the tempo estimate to the generator *)

Module PipelineFacts.

Import JS QB PatternGenerator.

(** The beat interval of every tempo estimate lies between a third and
    three quarters of a second. *)
Lemma estimateBPM_interval (onsets : list Q) (duration : Q) :
  exists t,
    AudioAnalyzer.estimateBPM onsets duration = Some t
    /\ (1 # 3 <= AudioAnalyzer.beatInterval t <= 3 # 4)%Q.
Proof.
  unfold AudioAnalyzer.estimateBPM.
  destruct (List.length onsets <? 4)%nat.
  - eexists. split; [reflexivity|]. cbn [AudioAnalyzer.beatInterval]. split; discriminate.
  - destruct (TempoFacts.folded_bpm_spec onsets) as (folded & Hf & Hlo & Hhi).
    rewrite Hf. eexists. split; [reflexivity|]. cbn [AudioAnalyzer.beatInterval].
    assert (Hpos : (0 < folded)%Q) by lra.
    split.
    + apply Qle_shift_div_l; [exact Hpos|]. lra.
    + apply Qle_shift_div_r; [exact Hpos|]. lra.
Qed.

(** The on/off split of a beat of three to eight ticks. *)
Lemma on_off_steps (spb : Z) :
  3 <= spb <= 8 ->
  1 <= calc_onSteps spb < spb
  /\ calc_offSteps spb (calc_onSteps spb) = spb - calc_onSteps spb.
Proof.
  intros H.
  assert (C : spb = 3 \/ spb = 4 \/ spb = 5 \/ spb = 6 \/ spb = 7 \/ spb = 8) by lia.
  destruct C as [->|[->|[->|[->|[->| ->]]]]]; vm_compute; repeat split; discriminate.
Qed.

End PipelineFacts.

(** X9.  The tempo estimate always lets the generator finish.  Whatever
    the onsets, the duration, the volume curve and the settings,
    [estimateBPM] returns a beat interval between 1/3 s and 3/4 s, and
    [generate] run on an analysis result with that tempo returns: its
    beat loop ends, a beat is three to eight ticks long, of which at
    least one and fewer than all are on-beat ticks, the rest being the
    break, and there is one intensity per 100 ms tick of the duration. *)
Theorem generate_returns_on_estimated_tempo (onsets : list Q) (duration : Q)
    (volumeData : list Analysis.VolumePoint) (s : PatternGenerator.Settings) :
  exists t g,
    AudioAnalyzer.estimateBPM onsets duration = Some t
    /\ (1 # 3 <= AudioAnalyzer.beatInterval t <= 3 # 4)%Q
    /\ PatternGenerator.generate
         {| Analysis.duration := duration;
            Analysis.bpm := AudioAnalyzer.bpm t;
            Analysis.beatInterval := AudioAnalyzer.beatInterval t;
            Analysis.volumeData := volumeData |} s = Some g
    /\ 3 <= PatternGenerator.stepsPerBeat g <= 8
    /\ 1 <= PatternGenerator.calc_onSteps (PatternGenerator.stepsPerBeat g)
         < PatternGenerator.stepsPerBeat g
    /\ PatternGenerator.calc_offSteps (PatternGenerator.stepsPerBeat g)
         (PatternGenerator.calc_onSteps (PatternGenerator.stepsPerBeat g))
       = PatternGenerator.stepsPerBeat g
         - PatternGenerator.calc_onSteps (PatternGenerator.stepsPerBeat g)
    /\ PatternGenerator.totalPoints g = Z.to_nat (JS.Math_ceil (duration / (1 # 10)))
    /\ PatternGenerator.patternCount g = List.length (PatternGenerator.patterns g)
    /\ PatternGenerator.gen_bpm g = AudioAnalyzer.bpm t.
Proof.
  destruct (PipelineFacts.estimateBPM_interval onsets duration) as (t & Ht & Hlo & Hhi).
  assert (Hb : (0 < AudioAnalyzer.beatInterval t)%Q) by lra.
  destruct (GenerateFacts.build_beats_total duration (AudioAnalyzer.beatInterval t)
              Hb _ 0%Q (GenerateFacts.beats_fuel_enough _ _ Hb)) as [beats Hbeats].
  exists t. eexists. split; [exact Ht|]. split; [split; assumption|].
  unfold PatternGenerator.generate.
  cbn [Analysis.duration Analysis.beatInterval Analysis.bpm Analysis.volumeData].
  rewrite Hbeats. split; [reflexivity|].
  cbn [PatternGenerator.stepsPerBeat PatternGenerator.totalPoints
       PatternGenerator.patternCount PatternGenerator.gen_bpm PatternGenerator.patterns].
  assert (Hspb : 3 <= PatternGenerator.calc_stepsPerBeat (AudioAnalyzer.beatInterval t) <= 8).
  { unfold PatternGenerator.calc_stepsPerBeat, PatternGenerator.intervalSec.
    apply TempoFacts.Math_round_bounds.
    assert (E : (AudioAnalyzer.beatInterval t / (1 # 10)
                 == AudioAnalyzer.beatInterval t * 10)%Q)
      by (unfold Qdiv; apply Qmult_comp; reflexivity).
    rewrite E. change (inject_Z 3) with 3%Q. change (inject_Z 8) with 8%Q. lra. }
  split; [exact Hspb|].
  destruct (PipelineFacts.on_off_steps _ Hspb) as [Hon Hoff].
  split; [exact Hon|]. split; [exact Hoff|].
  split; [|split; reflexivity].
  rewrite GenerateFacts.all_strengths_length. reflexivity.
Qed.

(** ** The analysis worker: the beat grid *)

Module BeatGridFacts.

Import JS QB BeatGrid.









End BeatGridFacts.

Module GridFacts.

Import JS QB BeatGrid.





End GridFacts.



(** ** The analysis worker: the pattern data *)

Module PatternDataFacts.

Import JS QB Analysis BeatGrid.







End PatternDataFacts.

(** ** The analysis worker: the run as a whole *)

Module WorkerFacts.

Import JS QB Analysis.



End WorkerFacts.



Section WorkerPipeline.

Import Analysis AudioAnalyzer.

Variable Math_sqrt : Q -> Q.
Hypothesis Math_sqrt_nonneg : forall x : Q, (0 <= Math_sqrt x)%Q.



End WorkerPipeline.


(** ** A generated script covers its track *)

(** X13.  No dead time in a generated script.  For an analysis result
    with a positive beat interval, [generate] returns, the converter
    accepts its commands and keeps one entry per command, and at every
    time [t] of the track, [0 <= t < duration], both the index loop of
    [checkPatternSync] and the [find] of [sendPatternAtCurrentTime]
    land on entry [floor(t / 5)], whose interval holds [t]. *)
Theorem generated_script_covers_track (display : PatternGenerator.Pattern -> string)
    (a : Analysis.AnalysisResult) (s : PatternGenerator.Settings) :
  (0 < Analysis.beatInterval a)%Q ->
  exists g es,
    PatternGenerator.generate a s = Some g
    /\ Playback.convertOfficialFormat display (PatternGenerator.patterns g) = Some es
    /\ List.length es = PatternGenerator.patternCount g
    /\ forall t, (0 <= t)%Q -> (t < Analysis.duration a)%Q ->
         exists e,
           Player.find_current es t 0 = Some (Z.to_nat (Qfloor (t / 5)))
           /\ nth_error es (Z.to_nat (Qfloor (t / 5))) = Some e
           /\ find (Player.covers t) es = Some e
           /\ (Player.start_of e <= t)%Q
           /\ (t < Player.end_of e)%Q.
Proof.
  intros Hb.
  destruct (GenerateFacts.build_beats_total (Analysis.duration a) (Analysis.beatInterval a)
              Hb _ 0%Q (GenerateFacts.beats_fuel_enough _ _ Hb)) as [beats Hbeats].
  set (all := PatternGenerator.all_strengths s a beats).
  set (f := PatternGenerator.featureStr_of (PatternGenerator.deviceType s)).
  destruct (CoverageFacts.convert_encode_from display f all 0) as (es & Hes & Hlen).
  eexists. exists es. unfold PatternGenerator.generate. rewrite Hbeats.
  split; [reflexivity|].
  cbn [PatternGenerator.patterns PatternGenerator.patternCount].
  fold all. fold f. unfold PatternGenerator.encode.
  split; [exact Hes|]. split; [exact Hlen|].
  intros t H0 Ht.
  assert (Hn : (t < inject_Z (Z.of_nat (List.length all)) / 10)%Q).
  { unfold all. rewrite GenerateFacts.all_strengths_length.
    unfold PatternGenerator.calc_totalSteps, JS.Math_ceil, PatternGenerator.intervalSec.
    assert (E : (Analysis.duration a / (1 # 10) == Analysis.duration a * 10)%Q)
      by (unfold Qdiv; apply Qmult_comp; reflexivity).
    set (x := (Analysis.duration a / (1 # 10))%Q) in *.
    pose proof (Qle_ceiling x) as Hc.
    assert (Hpos : 0 <= Qceiling x).
    { apply Z.lt_le_incl. rewrite Zlt_Qlt. change (inject_Z 0) with 0%Q. lra. }
    rewrite Z2Nat.id by exact Hpos.
    assert (D : (inject_Z (Qceiling x) / 10 == inject_Z (Qceiling x) * (1 # 10))%Q)
      by (unfold Qdiv; apply Qmult_comp; reflexivity).
    rewrite D. lra. }
  destruct (CoverageFacts.find_current_encode_from display f all 0 es 0%nat t Hes)
    as (j & m & Hlt & Hm & Hnth & Hf & Hfind & H1 & H2).
  { assert (E : (inject_Z (Z.of_nat 0) / 10 == 0)%Q) by reflexivity.
    rewrite E. exact H0. }
  { exact Hn. }
  cbn [Nat.add] in *.
  pose proof (CodecFacts.chunkSize_at_bounds all (50 * j) Hlt) as [Hc _].
  destruct (TimelineFacts.slot_of_time t j (PatternGenerator.chunkSize_at all (50 * j))
              ltac:(lia) H1 H2) as [Hk _].
  rewrite Hk. eexists. split; [exact Hf|]. split; [exact Hnth|].
  rewrite Hfind. split; [exact Hnth|].
  rewrite Hnth in Hfind. destruct (ResumePathFacts.find_covers _ _ _ Hfind) as [Hcov _].
  unfold Player.covers in Hcov. apply andb_true_iff in Hcov. destruct Hcov as [C1 C2].
  split; [apply QBFacts.leb_true; exact C1|apply QBFacts.ltb_true; exact C2].
Qed.

(** The script generated for a steady ten seconds, at 7.3 s. *)
Lemma generated_script_covers_track_witness :
  exists g es,
    PatternGenerator.generate Examples.steady_analysis Examples.default_settings = Some g
    /\ Playback.convertOfficialFormat Sessions.track_display (PatternGenerator.patterns g)
       = Some es
    /\ Player.find_current es (73 # 10) 0 = Some 1%nat.
Proof.
  destruct (generated_script_covers_track Sessions.track_display
              Examples.steady_analysis Examples.default_settings)
    as (g & es & H1 & H2 & _ & H4).
  - reflexivity.
  - exists g, es. split; [exact H1|]. split; [exact H2|].
    destruct (H4 (73 # 10)) as (e & H & _).
    + discriminate.
    + reflexivity.
    + exact H.
Defined.

(** ** Player: the volume controls *)

Module VolumeControlFacts.

Import QB VolumeControl.

Lemma clamp_unit_bounds (value lo hi : Q) :
  (lo <= hi)%Q -> (lo <= Utils.clamp value lo hi <= hi)%Q.
Proof.
  intros H. unfold Utils.clamp. split.
  - apply Q.min_glb; [apply Q.le_max_r|exact H].
  - apply Q.le_min_r.
Qed.

(** Inside the range the clamp returns its argument itself. *)
Lemma clamp_inside (value lo hi : Q) :
  (lo <= value <= hi)%Q -> Utils.clamp value lo hi = value.
Proof.
  intros [H1 H2]. unfold Utils.clamp, Qmin, Qmax, GenericMinMax.gmin, GenericMinMax.gmax.
  destruct (value ?= lo)%Q eqn:E1.
  - destruct (value ?= hi)%Q eqn:E2; try reflexivity.
    apply Qgt_alt in E2. lra.
  - apply Qlt_alt in E1. 
    destruct (lo ?= hi)%Q eqn:E2; lra.
  - destruct (value ?= hi)%Q eqn:E2; try reflexivity.
    apply Qgt_alt in E2. lra.
Qed.

Lemma setVolume_bounds (v : Volume) (vol : Q) : (0 <= volume (setVolume v vol) <= 1)%Q.
Proof. apply clamp_unit_bounds. discriminate. Qed.

Lemma step_bounds (v : Volume) (a : action) : (0 <= volume (step v a) <= 1)%Q.
Proof.
  destruct a as [vol| |deltaY]; cbn [step].
  - apply setVolume_bounds.
  - unfold toggleMute. destruct (ltb 0 (volume v)); apply setVolume_bounds.
  - apply setVolume_bounds.
Qed.

End VolumeControlFacts.

(** X14.  The volume controls.  Whatever sequence of [setVolume],
    [toggleMute] and wheel scrolls is applied to the player as it
    starts, the volume stays within [[0, 1]]. *)
Theorem volume_stays_in_range (actions : list VolumeControl.action) :
  let v := fold_left VolumeControl.step actions VolumeControl.initial in
  (0 <= VolumeControl.volume v <= 1)%Q.
Proof.
  intros v. unfold v. clear v.
  destruct actions as [|a actions] using rev_ind.
  - cbn. split; discriminate.
  - rewrite fold_left_app. cbn [fold_left]. apply VolumeControlFacts.step_bounds.
Qed.

(** X15.  Mute and unmute.  From an audible volume (above 0, at most 1)
    [toggleMute] silences the player and a second [toggleMute] brings
    back the very volume it had. *)
Theorem toggleMute_round_trip (v : VolumeControl.Volume) :
  (0 < VolumeControl.volume v <= 1)%Q ->
  (VolumeControl.volume (VolumeControl.toggleMute v) == 0)%Q
  /\ VolumeControl.volume (VolumeControl.toggleMute (VolumeControl.toggleMute v))
     = VolumeControl.volume v.
Proof.
  intros [H0 H1].
  assert (E : QB.ltb 0 (VolumeControl.volume v) = true) by (apply QBFacts.ltb_true; exact H0).
  assert (Hm : VolumeControl.toggleMute v
               = {| VolumeControl.volume := 0;
                    VolumeControl._savedVolume := Some (VolumeControl.volume v) |}).
  { unfold VolumeControl.toggleMute. rewrite E. reflexivity. }
  rewrite Hm. split; [reflexivity|].
  unfold VolumeControl.toggleMute.
  cbn [VolumeControl.volume VolumeControl._savedVolume VolumeControl.setVolume].
  change (QB.ltb 0 0) with false. cbv iota.
  cbn [VolumeControl.volume VolumeControl._savedVolume VolumeControl.setVolume].
  rewrite (CoverageFacts.or_default_nonzero (VolumeControl.volume v) 1) by lra.
  apply VolumeControlFacts.clamp_inside. split; lra.
Qed.

(** Mute and unmute from full volume. *)
Lemma toggleMute_round_trip_witness :
  VolumeControl.volume
    (VolumeControl.toggleMute (VolumeControl.toggleMute VolumeControl.initial))
  = VolumeControl.volume VolumeControl.initial.
Proof.
  apply (toggleMute_round_trip VolumeControl.initial).
  split; [reflexivity|discriminate].
Defined.

(** ** FileHandler: the active file *)

Module FileListFacts.

Import FileList.

Section Files.

Variable File : Type.

Lemma index_ok_spec (st : State File) :
  index_ok File st = true <->
  (files File st = [] /\ activeFileIndex File st = 0)
  \/ (files File st <> []
      /\ 0 <= activeFileIndex File st < Z.of_nat (List.length (files File st))).
Proof.
  unfold index_ok. destruct (files File st) as [|f fs] eqn:E; cbn [List.length Nat.eqb].
  - rewrite Z.eqb_eq. split.
    + intros H. left. split; [reflexivity|exact H].
    + intros [[_ H]|[H _]]; [exact H|congruence].
  - rewrite andb_true_iff, Z.leb_le, Z.ltb_lt. split.
    + intros H. right. split; [discriminate|exact H].
    + intros [[H _]|[_ H]]; [discriminate H|exact H].
Qed.

Lemma setActiveFile_ok (st : State File) (index : Z) :
  index_ok File st = true -> index_ok File (setActiveFile File st index) = true.
Proof.
  intros H. unfold setActiveFile.
  destruct ((index <? 0) || (Z.of_nat (List.length (files File st)) <=? index)) eqn:E;
    [exact H|].
  apply orb_false_iff in E. destruct E as [E1 E2].
  apply Z.ltb_ge in E1. apply Z.leb_gt in E2.
  apply index_ok_spec. right. cbn [files activeFileIndex].
  split; [|lia]. intros E. rewrite E in E2. cbn in E2. lia.
Qed.

Lemma removeFile_ok (st : State File) (index : Z) :
  index_ok File st = true -> index_ok File (removeFile File st index) = true.
Proof.
  intros H. apply index_ok_spec in H. apply index_ok_spec.
  unfold removeFile. cbn [files activeFileIndex].
  set (fs := splice_one File index (files File st)).
  destruct fs as [|f fs'] eqn:E.
  - left. split; reflexivity.
  - right. split; [discriminate|].
    change (Z.of_nat (List.length (f :: fs')) =? 0) with false. cbv iota.
    destruct (Z.of_nat (List.length (f :: fs')) <=? activeFileIndex File st) eqn:E2.
    + cbn [List.length]. lia.
    + apply Z.leb_gt in E2. destruct H as [[_ H]|[_ H]]; lia.
Qed.

Lemma push_files_ok (st : State File) (added : list File) :
  index_ok File st = true -> index_ok File (push_files File st added) = true.
Proof.
  intros H. unfold push_files. cbn [files activeFileIndex].
  match goal with |- context [if ?c then _ else _] => destruct c eqn:E end.
  - apply andb_true_iff in E. destruct E as [E1 E2].
    apply Z.ltb_lt in E1. apply Z.leb_le in E2.
    apply index_ok_spec. right. unfold setActiveFile. cbn [files activeFileIndex].
    change (0 <? 0) with false. cbn [orb].
    assert (E3 : (Z.of_nat (List.length (files File st ++ added)) <=? 0) = false)
      by (apply Z.leb_gt; exact E1).
    rewrite E3. cbn [files activeFileIndex].
    split; [|lia]. intros E. rewrite E in E1. cbn in E1. lia.
  - apply index_ok_spec in H. apply index_ok_spec. cbn [files activeFileIndex].
    apply andb_false_iff in E.
    destruct (files File st ++ added) as [|f fs] eqn:Ef.
    + left. apply app_eq_nil in Ef. destruct Ef as [Ef _].
      split; [reflexivity|]. destruct H as [[_ H]|[H _]]; [exact H|congruence].
    + right. split; [discriminate|].
      destruct E as [E|E].
      * apply Z.ltb_ge in E. cbn [List.length] in E. lia.
      * apply Z.leb_gt in E. destruct H as [[_ H]|[_ H]]; lia.
Qed.

Lemma step_ok (st : State File) (a : action File) :
  index_ok File st = true -> index_ok File (step File st a) = true.
Proof.
  intros H. destruct a as [index|index| |added|direction]; cbn [step].
  - apply setActiveFile_ok, H.
  - apply removeFile_ok, H.
  - reflexivity.
  - apply push_files_ok, H.
  - unfold navigateFile.
    match goal with |- context [if ?c then _ else _] => destruct c end; cbn [fst];
      [apply setActiveFile_ok, H|exact H].
Qed.

Lemma run_ok (actions : list (action File)) (st : State File) :
  index_ok File st = true -> index_ok File (fold_left (step File) actions st) = true.
Proof.
  revert st. induction actions as [|a actions IH]; intros st H; [exact H|].
  cbn [fold_left]. apply IH, step_ok, H.
Qed.

End Files.

End FileListFacts.

(** X16.  The active file of FileHandler.  Whatever sequence of
    [setActiveFile], [removeFile], [clearAll], [navigateFile] calls and
    file additions is applied to the handler as it starts, the active
    index is 0 when the list is empty and an index of the list
    otherwise; so [getActiveFile] returns a file exactly when there is
    one. *)
Theorem activeFileIndex_in_range (File : Type) (actions : list (FileList.action File)) :
  let st := fold_left (FileList.step File) actions (FileList.initial File) in
  FileList.index_ok File st = true
  /\ (FileList.getActiveFile File st = None <-> FileList.files File st = []).
Proof.
  intros st.
  assert (H : FileList.index_ok File st = true)
    by (apply FileListFacts.run_ok; reflexivity).
  split; [exact H|].
  apply FileListFacts.index_ok_spec in H. unfold FileList.getActiveFile.
  destruct H as [[Hf Hi]|[Hf Hi]].
  - rewrite Hi, Hf. cbn. split; reflexivity.
  - assert (E : (FileList.activeFileIndex File st <? 0) = false) by (apply Z.ltb_ge; lia).
    rewrite E. split.
    + intros Hn. apply nth_error_None in Hn. lia.
    + intros Hn. contradiction.
Qed.

(** ** The analysis worker: the times of the volume curve and of the onsets *)

Module CurveFacts.

Import JS QB Analysis AudioAnalyzer.

Section Curve.

Variable Math_sqrt : Q -> Q.
Variable channelData : list Q.
Variable sampleRate : Q.






End Curve.

End CurveFacts.

Module LookupFacts.

Import JS QB Analysis PatternGenerator.


End LookupFacts.

Section WorkerTiming.

Import Analysis AudioAnalyzer.

Variable Math_sqrt : Q -> Q.



(** X19.  Where the onsets lie.  For a positive sample rate, every
    onset the detector returns is the start time of a frame the loop
    visited: a multiple of the hop, in samples, divided by the sample
    rate; it is not negative and a whole frame fits between it and the
    end of the track. *)
Theorem detectOnsets_in_track (channelData : list Q) (sampleRate : Q) (os : list Q) :
  (0 < sampleRate)%Q ->
  detectOnsets Math_sqrt channelData sampleRate = Some os ->
  Forall (fun o =>
            exists k : Z,
              0 <= k
              /\ o = (inject_Z (k * hopSize sampleRate) / sampleRate)%Q
              /\ k * hopSize sampleRate
                 < Z.of_nat (List.length channelData) - frameSize sampleRate
              /\ (0 <= o)%Q
              /\ (o + inject_Z (frameSize sampleRate) / sampleRate
                  < duration_of channelData sampleRate)%Q) os.
Proof.
  intros Hr.
  set (P := fun o : Q =>
            exists k : Z,
              0 <= k
              /\ o = (inject_Z (k * hopSize sampleRate) / sampleRate)%Q
              /\ k * hopSize sampleRate
                 < Z.of_nat (List.length channelData) - frameSize sampleRate
              /\ (0 <= o)%Q
              /\ (o + inject_Z (frameSize sampleRate) / sampleRate
                  < duration_of channelData sampleRate)%Q).
  assert (Hframe : 0 <= frameSize sampleRate).
  { unfold frameSize, JS.Math_floor. change 0 with (Qfloor 0).
    apply Qfloor_resp_le. lra. }
  assert (Hhop : 0 <= hopSize sampleRate).
  { unfold hopSize, JS.Math_floor. change 0 with (Qfloor 0).
    apply Qfloor_resp_le. apply Qle_shift_div_l; [reflexivity|].
    change (0 * 2)%Q with (inject_Z 0). rewrite <- Zle_Qle. exact Hframe. }
  assert (Hstep : forall k st,
            0 <= k ->
            k * hopSize sampleRate
              < Z.of_nat (List.length channelData) - frameSize sampleRate ->
            Forall P (onsets st) ->
            Forall P (onsets (onset_step Math_sqrt channelData sampleRate
                                (k * hopSize sampleRate) st))).
  { intros k st Hk Hlt Hst. unfold onset_step. cbn [onsets].
    assert (Hnew : P (inject_Z (k * hopSize sampleRate) / sampleRate)%Q).
    { exists k. split; [exact Hk|]. split; [reflexivity|]. split; [exact Hlt|].
      assert (H0 : (0 <= inject_Z (k * hopSize sampleRate))%Q)
        by (change 0%Q with (inject_Z 0); rewrite <- Zle_Qle; nia).
      split.
      - apply Qle_shift_div_l; [exact Hr|]. lra.
      - unfold duration_of.
        assert (Hq : (inject_Z (k * hopSize sampleRate) + inject_Z (frameSize sampleRate)
                      < inject_Z (Z.of_nat (List.length channelData)))%Q)
          by (rewrite <- inject_Z_plus, <- Zlt_Qlt; lia).
        assert (Einv : (0 < / sampleRate)%Q) by (apply Qinv_lt_0_compat; exact Hr).
        unfold Qdiv. 
        setoid_replace (inject_Z (k * hopSize sampleRate) * / sampleRate
                        + inject_Z (frameSize sampleRate) * / sampleRate)%Q
          with ((inject_Z (k * hopSize sampleRate) + inject_Z (frameSize sampleRate))
                * / sampleRate)%Q by ring.
        apply Qmult_lt_compat_r; assumption. }
    match goal with |- context [if ?c then _ else _] => destruct c end; [|exact Hst].
    destruct (last_onset (onsets st)).
    - match goal with |- context [if ?c then _ else _] => destruct c end; [|exact Hst].
      apply Forall_app. split; [exact Hst|constructor; [exact Hnew|constructor]].
    - apply Forall_app. split; [exact Hst|constructor; [exact Hnew|constructor]]. }
  assert (Hloop : forall fuel k st os',
            0 <= k -> Forall P (onsets st) ->
            onset_loop Math_sqrt channelData sampleRate fuel (k * hopSize sampleRate) st
              = Some os' ->
            Forall P os').
  { induction fuel as [|fuel IH]; intros k st os' Hk Hst H; cbn [onset_loop] in H;
      destruct (k * hopSize sampleRate
                <? Z.of_nat (List.length channelData) - frameSize sampleRate) eqn:E;
      try discriminate.
    - injection H as <-. exact Hst.
    - apply Z.ltb_lt in E.
      replace (k * hopSize sampleRate + hopSize sampleRate)
        with ((k + 1) * hopSize sampleRate) in H by ring.
      apply (IH (k + 1) _ _ ltac:(lia) (Hstep k st Hk E Hst) H).
    - injection H as <-. exact Hst. }
  intros H. unfold detectOnsets in H.
  exact (Hloop (List.length channelData) 0
           {| onsets := []; prevEnergy := 0; energyHistory := [] |} os
           (Z.le_refl 0) (Forall_nil _) H).
Qed.

End WorkerTiming.



(** The two clicks lie inside their sixteenth of a second. *)
Lemma detectOnsets_in_track_witness :
  Forall (fun o => (0 <= o)%Q
                   /\ (o < AudioAnalyzer.duration_of Examples.click_samples 200)%Q)
         [7 # 200; 23 # 200]%Q.
Proof.
  pose proof (detectOnsets_in_track Examples.approx_sqrt Examples.click_samples 200
                [7 # 200; 23 # 200]%Q) as H.
  assert (H' := H ltac:(reflexivity) ltac:(vm_compute; reflexivity)).
  eapply Forall_impl; [|exact H']. cbv beta.
  intros o (k & _ & _ & _ & H0 & Hlt). split; [exact H0|].
  assert (0 <= inject_Z (AudioAnalyzer.frameSize 200) / 200)%Q by (vm_compute; discriminate).
  lra.
Defined.

(** ** PatternGenerator: the pattern library *)

Module ReplaceFacts.

Import Str.









End ReplaceFacts.


(** ** Utils: the time display *)

Module FormatFacts.

Import JS Str QB Utils.





End FormatFacts.


